(** * Boot-image utilities of the Cuttlefish host tools

    A shallow embedding of
    [host/commands/assemble_cvd/boot_image_utils.cc]: the key/value scan
    [ExtractValue], the commit guard [DeleteTmpFileIfNotChanged], the cpio
    magic probe [IsCpioArchive], the ramdisk concatenation of
    [RepackVendorRamdisk], the bootconfig trailer written by
    [RepackGem5BootImage] and the version check of
    [ReadAndroidVersionFromBootImage].

    A [std::string] is a [list byte]; a [std::size_t] position is a [nat] and
    [std::string::npos] is [None]; an unsigned 32-bit value is a [Z] reduced
    modulo [2^32]; files live in a [gmap] from path to content. *)

From Stdlib Require Import ZArith Lia List Bool.
From Stdlib Require Import Strings.String Strings.Ascii Strings.Byte.
From stdpp Require Import base option list gmap strings pretty.

Local Open Scope Z_scope.

(** ** Bytes and strings *)

Definition bytes (s : string) : list byte := list_byte_of_string s.

Definition NUL : byte := x00.
Definition LF : byte := x0a.
Definition QUOTE : byte := x27.

Definition byte_eqb (a b : byte) : bool := Byte.eqb a b.

#[global] Instance byte_eq_dec : EqDecision byte := Byte.byte_eq_dec.

(** The value of a byte as an unsigned char, 0..255. *)
Definition byte_val (b : byte) : Z := Z.of_N (Byte.to_N b).

Definition byte_of_Z (z : Z) : byte :=
  match Byte.of_N (Z.to_N z) with
  | Some b => b
  | None => x00
  end.

(** ** The target the host tools are compiled for

    Two facts about the C++ implementation are not fixed by the source text:
    whether plain [char] is a signed type, and the object representation of
    integers.  The hosts Cuttlefish runs on (x86-64 and AArch64 Linux) are
    little-endian LP64; plain [char] is signed on the first and unsigned on
    the second. *)

Record Target := { char_is_signed : bool }.

Definition x86_64_linux : Target := {| char_is_signed := true |}.
Definition aarch64_linux : Target := {| char_is_signed := false |}.

(** Integral promotion of a [char] read from a [std::string]. *)
Definition char_to_int (t : Target) (b : byte) : Z :=
  if char_is_signed t && (128 <=? byte_val b) then byte_val b - 256
  else byte_val b.

Definition uint32_t (z : Z) : Z := z mod 2 ^ 32.
Definition uint64_t (z : Z) : Z := z mod 2 ^ 64.

(** The object representation of an [n]-byte unsigned integer on a
    little-endian host: least significant byte first. *)
Fixpoint object_repr (n : nat) (v : Z) : list byte :=
  match n with
  | O => []
  | S n' => byte_of_Z (v mod 256) :: object_repr n' (v / 256)
  end.

(** Reading a little-endian unsigned integer back. *)
Fixpoint le_decode (bs : list byte) : Z :=
  match bs with
  | [] => 0
  | b :: bs' => byte_val b + 256 * le_decode bs'
  end.

(** ** [std::string] members used by the source *)

(** [s.find_last_not_of(c)]: the last position holding a byte other than
    [c], [npos] when there is none. *)
Fixpoint find_last_not_of (s : list byte) (c : byte) : option nat :=
  match s with
  | [] => None
  | x :: s' =>
      match find_last_not_of s' c with
      | Some i => Some (S i)
      | None => if byte_eqb x c then None else Some O
      end
  end.

(** [s.erase(pos)]: removes everything from [pos] on; throws
    [std::out_of_range] ([None]) when [pos > s.size()], which is what happens
    for [pos = npos]. *)
Definition erase (s : list byte) (pos : option nat) : option (list byte) :=
  match pos with
  | Some p => if (p <=? length s)%nat then Some (take p s) else None
  | None => None
  end.

(** Does [p] start [s]?  ([traits::compare] over [p.size()] characters.) *)
Fixpoint starts_with (p s : list byte) : bool :=
  match p, s with
  | [], _ => true
  | _ :: _, [] => false
  | a :: p', b :: s' => byte_eqb a b && starts_with p' s'
  end.

(** [s.find(key)] from position 0, positions counted from [base]. *)
Fixpoint find_from (base : nat) (s key : list byte) : option nat :=
  if starts_with key s then Some base
  else match s with
       | [] => None
       | _ :: s' => find_from (S base) s' key
       end.

Definition find (s key : list byte) : option nat := find_from O s key.

(** [s.find(c, pos)]: the first position at or after [pos] holding [c]. *)
Fixpoint find_char_from (base : nat) (s : list byte) (c : byte) : option nat :=
  match s with
  | [] => None
  | x :: s' => if byte_eqb x c then Some base else find_char_from (S base) s' c
  end.

Definition find_char (s : list byte) (c : byte) (pos : nat) : option nat :=
  find_char_from pos (drop pos s) c.

(** [s.substr(pos, n)], for [pos <= s.size()]. *)
Definition substr (s : list byte) (pos n : nat) : list byte :=
  take n (drop pos s).

(** ** Key/value extraction *)

Definition ExtractValue (dictionary key : list byte) : list byte :=
  match find dictionary key with
  | Some index =>
      match find_char dictionary LF (index + length key) with
      | Some end_index =>
          substr dictionary (index + length key)
                 (end_index - index - length key)
      | None => []
      end
  | None => []
  end.

(** ** Output streams

    An [std::ofstream] opened with [trunc]: the bytes written so far and
    whether the stream is still [good()].  Every insertion first builds a
    sentry, which does nothing on a stream that is not good. *)

Record ostream := { written : list byte; good : bool }.

Definition ofstream_trunc : ostream := {| written := []; good := true |}.

(** [os << in.rdbuf()]: copies the whole input sequence; when no character
    was inserted it sets [failbit]. *)
Definition put_rdbuf (os : ostream) (src : list byte) : ostream :=
  if good os then
    match src with
    | [] => {| written := written os; good := false |}
    | _ :: _ => {| written := written os ++ src; good := true |}
    end
  else os.

(** [os << s] for a [std::string] or a character array. *)
Definition put_string (os : ostream) (s : list byte) : ostream :=
  if good os then {| written := written os ++ s; good := true |} else os.

(** [os.write(p, count)] where [p] points to the object representation
    [obj]. *)
Definition write (os : ostream) (obj : list byte) (count : nat) : ostream :=
  if good os then {| written := written os ++ take count obj; good := true |}
  else os.

(** ** The bootconfig trailer of [RepackGem5BootImage] *)

Definition BOOTCONFIG_PREAMBLE : list byte :=
  bytes "androidboot.slot_suffix=_a" ++ [LF] ++
  bytes "androidboot.force_normal_boot=1" ++ [LF] ++
  bytes "androidboot.verifiedbootstate=orange" ++ [LF].

Definition BOOTCONFIG_MAGIC : list byte := bytes "#BOOTCONFIG" ++ [LF].

(** [istream::read(&buf[pos], n)] of a stream holding [data]: the bytes
    land in place in the buffer. *)
Definition read_into (buf : list byte) (pos : nat) (data : list byte)
  : list byte :=
  list_inserts pos data buf.

(** Lines 426-433: the preamble, grown by [vb_size + pb_size] NUL bytes,
    then filled from the two bootconfig streams. *)
Definition accumulated_bootconfig (vendor persistent : list byte)
  : list byte :=
  let vb_size := length vendor in
  let pb_size := length persistent in
  let bootconfig := BOOTCONFIG_PREAMBLE in
  let bootconfig_size := length bootconfig in
  let bootconfig :=
    resize (bootconfig_size + (vb_size + pb_size)) NUL bootconfig in
  let bootconfig := read_into bootconfig bootconfig_size vendor in
  read_into bootconfig (bootconfig_size + vb_size) persistent.

(** Line 435: [bootconfig.erase(bootconfig.find_last_not_of('\0'))]. *)
Definition trim_padding (bootconfig : list byte) : option (list byte) :=
  erase bootconfig (find_last_not_of bootconfig NUL).

(** Lines 447-450: the checksum loop over a [uint32_t] accumulator. *)
Definition bootconfig_csum (t : Target) (bootconfig : list byte) : Z :=
  fold_left (fun csum c => uint32_t (csum + char_to_int t c)) bootconfig 0.

(** The function from line 423 on, as a function of the contents of the
    four input streams: the boot ramdisk, the vendor ramdisk, the vendor
    bootconfig and the persistent bootconfig.  The result is the content of
    [initrd_path] after [close()]; [None] is an exception leaving the
    function. *)
Definition RepackGem5BootImage (t : Target)
    (boot_ramdisk vendor_boot_ramdisk : list byte)
    (vendor_boot_bootconfig persistent_bootconfig : list byte)
  : option (list byte) :=
  let final_rd := ofstream_trunc in
  let bootconfig :=
    accumulated_bootconfig vendor_boot_bootconfig persistent_bootconfig in
  match trim_padding bootconfig with
  | None => None
  | Some bootconfig =>
      let final_rd :=
        put_string
          (put_rdbuf (put_rdbuf final_rd boot_ramdisk) vendor_boot_ramdisk)
          bootconfig in
      let bootconfig_size := uint64_t (Z.of_nat (length bootconfig)) in
      let final_rd := write final_rd (object_repr 8 bootconfig_size) 4 in
      let csum := bootconfig_csum t bootconfig in
      let final_rd := write final_rd (object_repr 4 csum) 4 in
      let final_rd := put_string final_rd BOOTCONFIG_MAGIC in
      Some (written final_rd)
  end.

(** The three fields as a reader of the image finds them, counted back from
    the end: 12 bytes of magic, 4 of checksum, 4 of length. *)
Definition magic_field (image : list byte) : list byte :=
  drop (length image - 12) image.

Definition checksum_field (image : list byte) : list byte :=
  take 4 (drop (length image - 16) image).

Definition length_field (image : list byte) : list byte :=
  take 4 (drop (length image - 20) image).

(** ** Files *)

(** Regular files by path. *)
Abbreviation FS := (gmap string (list byte)).

(** What the kernel refuses for reasons the file contents do not show
    (permissions, a read-only or different file system). *)
Record OS := {
  rename_refused : string -> string -> bool;
  unlink_refused : string -> bool
}.

Definition permissive : OS :=
  {| rename_refused := fun _ _ => false; unlink_refused := fun _ => false |}.

(** Modelled from the spec: [FileExists] of common/libs/utils/files.h, which
    is not among the sources. *)
Definition FileExists (path : string) (fs : FS) : bool :=
  bool_decide (is_Some (fs !! path)).

(** Modelled from the spec: [ReadFile] of common/libs/utils/files.h reads a
    file fully; a file that cannot be opened reads as the empty string. *)
Definition ReadFile (path : string) (fs : FS) : list byte :=
  default [] (fs !! path).

(** Modelled from the spec: [RenameFile] of common/libs/utils/files.h,
    rename(2): the target is replaced, the source name disappears; it fails
    when the kernel refuses or the source is missing, and then changes
    nothing. *)
Definition RenameFile (os : OS) (current target : string) (fs : FS)
  : bool * FS :=
  if rename_refused os current target then (false, fs)
  else match fs !! current with
       | None => (false, fs)
       | Some content =>
           if bool_decide (current = target) then (true, fs)
           else (true, <[target := content]> (delete current fs))
       end.

(** Modelled from the spec: [RemoveFile] of common/libs/utils/files.h,
    remove(3), reporting whether the file was removed. *)
Definition RemoveFile (os : OS) (file : string) (fs : FS) : bool * FS :=
  if unlink_refused os file then (false, fs)
  else match fs !! file with
       | None => (false, fs)
       | Some _ => (true, delete file fs)
       end.

(** ** The commit guard *)

Definition DeleteTmpFileIfNotChanged (os : OS) (tmp_file current_file : string)
    (fs : FS) : bool * FS :=
  if negb (FileExists current_file fs)
     || negb (bool_decide (ReadFile current_file fs = ReadFile tmp_file fs))
  then
    let '(ok, fs') := RenameFile os tmp_file current_file fs in
    if negb ok then (false, fs') else (true, fs')
  else
    let '(_, fs') := RemoveFile os tmp_file fs in
    (true, fs').

(** ** The cpio magic probe *)

Definition CPIO_MAGIC : list byte := bytes "070701".

(** Modelled from the spec: [SharedFD::Open(path, O_RDONLY)] of
    common/libs/fs/shared_fd.h; a path that cannot be opened gives a closed
    descriptor ([None]), otherwise the descriptor reads the file from its
    start. *)
Definition Open (path : string) (fs : FS) : option (list byte) := fs !! path.

(** Modelled from the spec: [fd->Read(buf, count)], read(2): the number of
    bytes read, -1 on a closed descriptor, and the buffer afterwards. *)
Definition Read (fd : option (list byte)) (buf : list byte) (count : nat)
  : Z * list byte :=
  match fd with
  | None => (-1, buf)
  | Some content =>
      let data := take count content in
      (Z.of_nat (length data), data ++ drop (length data) buf)
  end.

Fixpoint memcmp (a b : list byte) (n : nat) {struct n} : Z :=
  match n, a, b with
  | S n', x :: a', y :: b' =>
      if byte_eqb x y then memcmp a' b' n' else byte_val x - byte_val y
  | _, _, _ => 0
  end.

Definition IsCpioArchive (path : string) (fs : FS) : bool :=
  let fd := Open path fs in
  let buf := replicate (length CPIO_MAGIC) NUL in
  let '(n, buf) := Read fd buf (length CPIO_MAGIC) in
  if negb (n =? Z.of_nat (length CPIO_MAGIC)) then false
  else memcmp buf CPIO_MAGIC (length CPIO_MAGIC) =? 0.

(** ** Regular expressions, as far as [std::regex_match] needs them here *)

Inductive regex :=
| Empty
| Epsilon
| Bracket (lo hi : byte)
| Concat (r1 r2 : regex)
| Alt (r1 r2 : regex)
| Star (r : regex).

Definition Plus (r : regex) : regex := Concat r (Star r).

Definition in_range (lo hi c : byte) : bool :=
  (byte_val lo <=? byte_val c) && (byte_val c <=? byte_val hi).

Fixpoint nullable (r : regex) : bool :=
  match r with
  | Empty => false
  | Epsilon => true
  | Bracket _ _ => false
  | Concat r1 r2 => nullable r1 && nullable r2
  | Alt r1 r2 => nullable r1 || nullable r2
  | Star _ => true
  end.

Fixpoint derivative (c : byte) (r : regex) : regex :=
  match r with
  | Empty => Empty
  | Epsilon => Empty
  | Bracket lo hi => if in_range lo hi c then Epsilon else Empty
  | Concat r1 r2 =>
      if nullable r1
      then Alt (Concat (derivative c r1) r2) (derivative c r2)
      else Concat (derivative c r1) r2
  | Alt r1 r2 => Alt (derivative c r1) (derivative c r2)
  | Star r' => Concat (derivative c r') (Star r')
  end.

(** [std::regex_match(s, re)]: the whole of [s] must match. *)
Fixpoint regex_match (s : list byte) (re : regex) : bool :=
  match s with
  | [] => nullable re
  | c :: s' => regex_match s' (derivative c re)
  end.

(** The language of a regular expression. *)
Inductive matches : regex -> list byte -> Prop :=
| m_epsilon : matches Epsilon []
| m_bracket lo hi c : in_range lo hi c = true -> matches (Bracket lo hi) [c]
| m_concat r1 r2 s1 s2 :
    matches r1 s1 -> matches r2 s2 -> matches (Concat r1 r2) (s1 ++ s2)
| m_alt_l r1 r2 s : matches r1 s -> matches (Alt r1 r2) s
| m_alt_r r1 r2 s : matches r2 s -> matches (Alt r1 r2) s
| m_star_nil r : matches (Star r) []
| m_star_app r s1 s2 :
    matches r s1 -> matches (Star r) s2 -> matches (Star r) (s1 ++ s2).

(** ** Reading the Android version *)

Inductive Result (A : Type) :=
| Ok (value : A)
| CF_ERR (message : list byte).
Arguments Ok {A} value.
Arguments CF_ERR {A} message.

(** [a.erase(remove(a.begin(), a.end(), c), a.end())]. *)
Fixpoint erase_remove (s : list byte) (c : byte) : list byte :=
  match s with
  | [] => []
  | x :: s' =>
      if byte_eqb x c then erase_remove s' c else x :: erase_remove s' c
  end.

Definition DIGIT_0 : byte := x30.
Definition DIGIT_1 : byte := x31.
Definition DIGIT_9 : byte := x39.
Definition DOT : byte := x2e.
Definition DQUOTE : byte := x22.

(** [std::regex re("[1-9][0-9]*([.][0-9]+)*")]. *)
Definition VERSION_RE : regex :=
  Concat (Bracket DIGIT_1 DIGIT_9)
    (Concat (Star (Bracket DIGIT_0 DIGIT_9))
       (Star (Concat (Bracket DOT DOT) (Plus (Bracket DIGIT_0 DIGIT_9))))).

Definition OS_VERSION_KEY : list byte :=
  bytes "Prop: com.android.build.boot.os_version -> ".

(** Lines 484-500: from the text of the dumped boot parameters on. *)
Definition AndroidVersionFromBootParams (boot_params : list byte)
  : Result (list byte) :=
  let os_version := ExtractValue boot_params OS_VERSION_KEY in
  if bool_decide (os_version = bytes "None") then Ok (bytes "0.0.0")
  else
    let os_version := erase_remove os_version QUOTE in
    if regex_match os_version VERSION_RE then Ok os_version
    else CF_ERR (bytes "Version string is not a valid version " ++
                 [DQUOTE] ++ os_version ++ [DQUOTE]).

(** ** Code that runs external tools *)

Definition TMP_EXTENSION : string := ".tmp".
Definition CPIO_EXT : string := ".cpio".
Definition TMP_RD_DIR : string := "stripped_ramdisk_dir".
Definition STRIPPED_RD : string := "stripped_ramdisk".
Definition CONCATENATED_VENDOR_RAMDISK : string := "concatenated_vendor_ramdisk".

Section ExternalTools.

(** The collaborators outside this file: where a host binary lives, what
    running a command does to the files and which status it exits with,
    what it prints on its standard output, and the directory and copy
    helpers of common/libs/utils.  A failed [CHECK] aborts the process:
    [None]. *)
Variable HostBinaryPath : string -> string.
Variable Execute : list string -> FS -> Z * FS.
Variable Command_stdout : list string -> FS -> Z * list byte.
Variable Copy : string -> string -> FS -> bool * FS.
Variable EnsureDirectoryExists : string -> FS -> bool * FS.
Variable Creat : string -> FS -> bool.
Variable mkdtemp : FS -> option string.

Definition UnpackRamdisk (original_ramdisk_path ramdisk_stage_dir : string)
    (fs : FS) : option FS :=
  fs ← (if IsCpioArchive original_ramdisk_path fs then
          let '(ok, fs) :=
            Copy original_ramdisk_path (original_ramdisk_path +:+ CPIO_EXT)
                 fs in
          if ok then Some fs else None
        else
          let '(success, fs) :=
            Execute ["/bin/bash"; "-c";
                     HostBinaryPath "lz4" +:+ " -c -d -l " +:+
                     original_ramdisk_path +:+ " > " +:+
                     original_ramdisk_path +:+ CPIO_EXT] fs in
          if success =? 0 then Some fs else None);
  let '(ret, fs) := EnsureDirectoryExists ramdisk_stage_dir fs in
  if negb ret then None
  else
    let '(success, fs) :=
      Execute ["/bin/bash"; "-c";
               "(cd " +:+ ramdisk_stage_dir +:+ " && while " +:+
               HostBinaryPath "toybox" +:+ " cpio -idu; do :; done) < " +:+
               original_ramdisk_path +:+ CPIO_EXT] fs in
    if success =? 0 then Some fs else None.

(** Lines 102-106: the output is opened (and truncated) first, then the
    two inputs are opened and streamed into it. *)
Definition concatenate_ramdisks
    (stripped_ramdisk_path kernel_modules_ramdisk_path
       new_ramdisk_path : string) (fs : FS) : FS :=
  let fs := <[new_ramdisk_path := []]> fs in
  let final_rd := ofstream_trunc in
  let ramdisk_a := ReadFile stripped_ramdisk_path fs in
  let ramdisk_b := ReadFile kernel_modules_ramdisk_path fs in
  let final_rd := put_rdbuf (put_rdbuf final_rd ramdisk_a) ramdisk_b in
  <[new_ramdisk_path := written final_rd]> fs.

Definition RepackVendorRamdisk
    (kernel_modules_ramdisk_path original_ramdisk_path
       new_ramdisk_path build_dir : string) (fs : FS) : option FS :=
  let ramdisk_stage_dir := build_dir +:+ "/" +:+ TMP_RD_DIR in
  fs ← UnpackRamdisk original_ramdisk_path ramdisk_stage_dir fs;
  let '(success, fs) :=
    Execute ["rm"; "-rf"; ramdisk_stage_dir +:+ "/lib/modules"] fs in
  if negb (success =? 0) then None
  else
    let stripped_ramdisk_path := build_dir +:+ "/" +:+ STRIPPED_RD in
    let '(success, fs) :=
      Execute ["/bin/bash"; "-c";
               HostBinaryPath "mkbootfs" +:+ " " +:+ ramdisk_stage_dir +:+
               " > " +:+ stripped_ramdisk_path +:+ CPIO_EXT] fs in
    if negb (success =? 0) then None
    else
      let '(success, fs) :=
        Execute ["/bin/bash"; "-c";
                 HostBinaryPath "lz4" +:+ " -c -l -12 --favor-decSpeed " +:+
                 stripped_ramdisk_path +:+ CPIO_EXT +:+ " > " +:+
                 stripped_ramdisk_path] fs in
      if negb (success =? 0) then None
      else
        Some (concatenate_ramdisks stripped_ramdisk_path
                kernel_modules_ramdisk_path new_ramdisk_path fs).

Definition GetAvbMetadatFromBootImage (boot_image_path unpack_dir : string)
    (fs : FS) : bool * FS :=
  let output_file := unpack_dir +:+ "/boot_params" in
  if negb (Creat output_file fs) then (false, fs)
  else
    let '(success, out) :=
      Command_stdout [HostBinaryPath "avbtool"; "info_image"; "--image";
                      boot_image_path] fs in
    let fs := <[output_file := out]> fs in
    if negb (success =? 0) then (false, fs) else (true, fs).

Definition ReadAndroidVersionFromBootImage (boot_image_path : string)
    (fs : FS) : Result (list byte) :=
  match mkdtemp fs with
  | None => CF_ERR (bytes "boot image unpack dir could not be created")
  | Some unpack_dir =>
      let '(unpack_status, fs) :=
        GetAvbMetadatFromBootImage boot_image_path unpack_dir fs in
      if negb unpack_status then
        CF_ERR ([DQUOTE] ++ bytes boot_image_path ++ [DQUOTE] ++
                bytes " boot image unpack into " ++ [DQUOTE] ++
                bytes unpack_dir ++ [DQUOTE] ++ bytes " failed")
      else
        let boot_params := ReadFile (unpack_dir +:+ "/boot_params") fs in
        AndroidVersionFromBootParams boot_params
  end.

End ExternalTools.

(** ** The vendor command line *)

Definition SPACE : byte := x20.

(** Left-to-right replacement of the occurrences of [from] that do not
    overlap: at an occurrence [to] is emitted and the rest of the occurrence
    is skipped. *)
Fixpoint replace_scan (from to : list byte) (skip : nat) (s : list byte)
  : list byte :=
  match s with
  | [] => []
  | c :: s' =>
      match skip with
      | S k => replace_scan from to k s'
      | O =>
          if starts_with from s
          then to ++ replace_scan from to (length from - 1) s'
          else c :: replace_scan from to 0 s'
      end
  end.

(** Modelled from the spec: [android::base::StringReplace(s, from, to, all)]
    of libbase, which is not among the sources, for [all = true] as at both
    call sites: every occurrence of [from], found from left to right, is
    replaced by [to]; an empty [from] leaves [s] as it is. *)
Definition StringReplace (s from to : list byte) : list byte :=
  match from with
  | [] => s
  | _ :: _ => replace_scan from to 0 s
  end.

(** Lines 319-331 of [RepackVendorBootImage]. *)
Definition vendor_kernel_cmdline (vendor_boot_params bootconfig : list byte)
    (bootconfig_supported : bool) : list byte :=
  let kernel_cmdline :=
    ExtractValue vendor_boot_params (bytes "vendor command line args: ") ++
    (if bootconfig_supported then []
     else bytes " " ++ StringReplace bootconfig [LF] (bytes " ")) in
  if negb bootconfig_supported
  then StringReplace kernel_cmdline (bytes " kernel.") (bytes " ")
  else kernel_cmdline.

(** ** Unpacking and repacking images *)

(** Modelled from the spec: [FileSize] of common/libs/utils/files.h, the
    size of a file in bytes. *)
Definition FileSize (path : string) (fs : FS) : Z :=
  Z.of_nat (length (ReadFile path fs)).

Section Orchestration.

(** A [Command] run to completion with [Start().Wait()]: its exit status,
    what it printed on its standard output and the files afterwards;
    [SharedFD::Creat], telling whether the file could be created; and the
    hash-footer step of the [Avb] object. *)
Variable HostBinaryPath : string -> string.
Variable Command : list string -> FS -> Z * list byte * FS.
Variable Creat : string -> FS -> bool.
Variable AddHashFooter : string -> string -> Z -> FS -> bool * FS.
Variable Execute : list string -> FS -> Z * FS.
Variable Copy : string -> string -> FS -> bool * FS.
Variable EnsureDirectoryExists : string -> FS -> bool * FS.

(** [cmd.RedirectStdIO(kStdOut, file)] on a created (so empty) file, then
    [cmd.Start().Wait()]. *)
Definition run_redirected (args : list string) (output_file : string)
    (fs : FS) : Z * FS :=
  let '(status, out, fs) := Command args (<[output_file := []]> fs) in
  (status, <[output_file := out]> fs).

Definition PackRamdisk (ramdisk_stage_dir output_ramdisk : string) (fs : FS)
  : option FS :=
  let '(success, fs) :=
    Execute ["/bin/bash"; "-c";
             HostBinaryPath "mkbootfs" +:+ " " +:+ ramdisk_stage_dir +:+
             " > " +:+ output_ramdisk +:+ CPIO_EXT] fs in
  if negb (success =? 0) then None
  else
    let '(success, fs) :=
      Execute ["/bin/bash"; "-c";
               HostBinaryPath "lz4" +:+ " -c -l -12 --favor-decSpeed " +:+
               output_ramdisk +:+ CPIO_EXT +:+ " > " +:+ output_ramdisk] fs in
    if negb (success =? 0) then None else Some fs.

Definition UnpackBootImage (boot_image_path unpack_dir : string) (fs : FS)
  : bool * FS :=
  let output_file := unpack_dir +:+ "/boot_params" in
  if negb (Creat output_file fs) then (false, fs)
  else
    let '(success, fs) :=
      run_redirected [HostBinaryPath "unpack_bootimg"; "--boot_img";
                      boot_image_path; "--out"; unpack_dir] output_file fs in
    if negb (success =? 0) then (false, fs) else (true, fs).

Definition UnpackVendorBootImageIfNotUnpacked
    (vendor_boot_image_path unpack_dir : string) (fs : FS) : bool * FS :=
  if FileExists (unpack_dir +:+ "/vendor_boot_params") fs then (true, fs)
  else
    let output_file := unpack_dir +:+ "/vendor_boot_params" in
    if negb (Creat output_file fs) then (false, fs)
    else
      let '(success, fs) :=
        run_redirected [HostBinaryPath "unpack_bootimg"; "--boot_img";
                        vendor_boot_image_path; "--out"; unpack_dir]
                       output_file fs in
      if negb (success =? 0) then (false, fs)
      else
        let concat_file :=
          unpack_dir +:+ "/" +:+ CONCATENATED_VENDOR_RAMDISK in
        if negb (Creat concat_file fs) then (false, fs)
        else
          let '(success, fs) :=
            run_redirected ["/bin/bash"; "-c";
                            "cat " +:+ unpack_dir +:+ "/vendor_ramdisk*"]
                           concat_file fs in
          if negb (success =? 0) then (false, fs) else (true, fs).

Definition RepackBootImage (os : OS)
    (new_kernel_path boot_image_path new_boot_image_path build_dir : string)
    (fs : FS) : Result unit * FS :=
  let '(unpacked, fs) := UnpackBootImage boot_image_path build_dir fs in
  if negb unpacked then (CF_ERR (bytes "UnpackBootImage"), fs)
  else
    let boot_params := ReadFile (build_dir +:+ "/boot_params") fs in
    let kernel_cmdline :=
      ExtractValue boot_params (bytes "command line args: ") in
    let tmp_boot_image_path := new_boot_image_path +:+ TMP_EXTENSION in
    let '(result, _, fs) :=
      Command [HostBinaryPath "mkbootimg"; "--kernel"; new_kernel_path;
               "--ramdisk"; build_dir +:+ "/ramdisk";
               "--header_version"; "4";
               "--cmdline"; string_of_list_byte kernel_cmdline;
               "-o"; tmp_boot_image_path] fs in
    if negb (result =? 0)
    then (CF_ERR (bytes "Unable to run mkbootimg. Exited with status "
                  ++ bytes (pretty result)), fs)
    else
      let '(signed, fs) :=
        AddHashFooter tmp_boot_image_path "boot"
                      (FileSize boot_image_path fs) fs in
      if negb signed then (CF_ERR (bytes "AddHashFooter"), fs)
      else
        let '(committed, fs) :=
          DeleteTmpFileIfNotChanged os tmp_boot_image_path
                                    new_boot_image_path fs in
        if negb committed then (CF_ERR (bytes "DeleteTmpFileIfNotChanged"), fs)
        else (Ok tt, fs).

(** [None] is a failed [CHECK] inside [RepackVendorRamdisk]. *)
Definition RepackVendorBootImage (os : OS)
    (new_ramdisk vendor_boot_image_path new_vendor_boot_image_path
       unpack_dir : string) (bootconfig_supported : bool) (fs : FS)
  : option (bool * FS) :=
  let '(unpacked, fs) :=
    UnpackVendorBootImageIfNotUnpacked vendor_boot_image_path unpack_dir fs in
  if negb unpacked then Some (false, fs)
  else
    '(ramdisk_path, fs) ←
      (if negb (String.length new_ramdisk =? 0)%nat then
         let ramdisk_path := unpack_dir +:+ "/vendor_ramdisk_repacked" in
         if negb (FileExists ramdisk_path fs) then
           fs ← RepackVendorRamdisk HostBinaryPath Execute Copy
                  EnsureDirectoryExists new_ramdisk
                  (unpack_dir +:+ "/" +:+ CONCATENATED_VENDOR_RAMDISK)
                  ramdisk_path unpack_dir fs;
           Some (ramdisk_path, fs)
         else Some (ramdisk_path, fs)
       else Some (unpack_dir +:+ "/" +:+ CONCATENATED_VENDOR_RAMDISK, fs));
    let bootconfig := ReadFile (unpack_dir +:+ "/bootconfig") fs in
    let vendor_boot_params :=
      ReadFile (unpack_dir +:+ "/vendor_boot_params") fs in
    let kernel_cmdline :=
      vendor_kernel_cmdline vendor_boot_params bootconfig
                            bootconfig_supported in
    let tmp_vendor_boot_image_path :=
      new_vendor_boot_image_path +:+ TMP_EXTENSION in
    let '(success, _, fs) :=
      Command ([HostBinaryPath "mkbootimg"; "--vendor_ramdisk"; ramdisk_path;
                "--header_version"; "4";
                "--vendor_cmdline"; string_of_list_byte kernel_cmdline;
                "--vendor_boot"; tmp_vendor_boot_image_path;
                "--dtb"; unpack_dir +:+ "/dtb"] ++
               (if bootconfig_supported
                then ["--vendor_bootconfig"; unpack_dir +:+ "/bootconfig"]
                else [])) fs in
    if negb (success =? 0) then Some (false, fs)
    else
      let '(success, _, fs) :=
        Command [HostBinaryPath "avbtool"; "add_hash_footer";
                 "--image"; tmp_vendor_boot_image_path;
                 "--partition_size";
                 pretty (FileSize vendor_boot_image_path fs);
                 "--partition_name"; "vendor_boot"] fs in
      if negb (success =? 0) then Some (false, fs)
      else
        Some (DeleteTmpFileIfNotChanged os tmp_vendor_boot_image_path
                                        new_vendor_boot_image_path fs).

Definition RepackVendorBootImageWithEmptyRamdisk (os : OS)
    (vendor_boot_image_path new_vendor_boot_image_path unpack_dir : string)
    (bootconfig_supported : bool) (fs : FS) : option (bool * FS) :=
  let empty_ramdisk_file := unpack_dir +:+ "/empty_ramdisk" in
  let fs :=
    if Creat empty_ramdisk_file fs then <[empty_ramdisk_file := []]> fs
    else fs in
  RepackVendorBootImage os (unpack_dir +:+ "/empty_ramdisk")
    vendor_boot_image_path new_vendor_boot_image_path unpack_dir
    bootconfig_supported fs.

End Orchestration.

(** ** Boolean flags of the launcher ([host/commands/start/main.cc]) *)

Module Start.

(** The names of [kBoolFlags]; only membership is asked of the set. *)
Definition kBoolFlags : list (list byte) :=
  [bytes "guest_enforce_security";
  bytes "use_random_serial";
  bytes "use_allocd";
  bytes "use_sdcard";
  bytes "pause_in_bootloader";
  bytes "daemon";
  bytes "enable_minimal_mode";
  bytes "enable_modem_simulator";
  bytes "console";
  bytes "enable_sandbox";
  bytes "enable_virtiofs";
  bytes "restart_subprocesses";
  bytes "enable_gpu_udmabuf";
  bytes "enable_gpu_vhost_user";
  bytes "enable_audio";
  bytes "start_gnss_proxy";
  bytes "enable_bootanimation";
  bytes "record_screen";
  bytes "protected_vm";
  bytes "enable_kernel_log";
  bytes "kgdb";
  bytes "start_webrtc";
  bytes "smt";
  bytes "vhost_net";
  bytes "vhost_user_vsock";
  bytes "chromeos_boot";
  bytes "enable_host_sandbox"].

Record BooleanFlag := {
  is_bool_flag : bool;
  bool_flag_value : bool;
  name : list byte
}.

(** Modelled from the spec: [android::base::ConsumePrefix(&s, prefix)] of
    libbase: when [s] starts with [prefix], the prefix is removed from the
    view and true is returned. *)
Definition ConsumePrefix (s prefix : list byte) : bool * list byte :=
  if starts_with prefix s then (true, drop (length prefix) s) else (false, s).

Definition EQUALS : byte := x3d.

Definition no_flag : BooleanFlag :=
  {| is_bool_flag := false; bool_flag_value := false; name := [] |}.

Definition IsBoolArg (argument : list byte) : BooleanFlag :=
  let '(dashed, name) := ConsumePrefix argument (bytes "-") in
  if negb dashed then no_flag
  else
    let '(_, name) := ConsumePrefix name (bytes "-") in
    match find_char name EQUALS 0 with
    | Some _ => no_flag
    | None =>
        let result_name := name in
        let new_name := result_name in
        if (length result_name =? 0)%nat then no_flag
        else if bool_decide (result_name ∈ kBoolFlags) then
          {| is_bool_flag := true; bool_flag_value := true;
             name := result_name |}
        else
          let '(negated, new_name) := ConsumePrefix new_name (bytes "no") in
          if negated then
            let result_name := new_name in
            if bool_decide (result_name ∈ kBoolFlags) then
              {| is_bool_flag := true; bool_flag_value := false;
                 name := result_name |}
            else no_flag
          else no_flag
    end.

Definition FormatBoolString (name_str : list byte) (value : bool)
  : list byte :=
  let new_flag := bytes "--" ++ name_str in
  if value then new_flag ++ bytes "=true" else new_flag ++ bytes "=false".

(** The loop of [OverrideBoolArg] over the indices of [args], which it
    updates in place; the result is the returned flag and the vector
    afterwards. *)
Definition OverrideBoolArg (args : list (list byte))
  : bool * list (list byte) :=
  foldl (fun '(overrided, args) index =>
           match args !! index with
           | Some curr_arg =>
               let value := IsBoolArg curr_arg in
               if is_bool_flag value then
                 (true,
                  <[index := FormatBoolString (name value)
                                              (bool_flag_value value)]> args)
               else (overrided, args)
           | None => (overrided, args)
           end)
        (false, args) (seq 0 (length args)).

End Start.

(** ** A tool set to run the model on

    Every command exits with status 0; a command leaves a compressed
    ramdisk at out/stripped_ramdisk; avbtool prints one property line. *)

Definition stub_HostBinaryPath (name : string) : string :=
  "/usr/bin/" +:+ name.

Definition stub_Execute (args : list string) (fs : FS) : Z * FS :=
  (0, <["out/stripped_ramdisk" := bytes "LZ4-stripped"]> fs).

Definition stub_Copy (from to : string) (fs : FS) : bool * FS :=
  match fs !! from with
  | Some content => (true, <[to := content]> fs)
  | None => (false, fs)
  end.

Definition stub_EnsureDirectoryExists (dir : string) (fs : FS) : bool * FS :=
  (true, fs).

Definition stub_avbtool (version : list byte) (args : list string) (fs : FS)
  : Z * list byte :=
  (0, bytes "Prop: com.android.build.boot.fingerprint -> 'x'" ++ [LF] ++
      OS_VERSION_KEY ++ version ++ [LF]).

(** A tool that exits with status 0 after printing [out]. *)
Definition stub_print (out : list byte) (args : list string) (fs : FS)
  : Z * list byte :=
  (0, out).

(** ** The specification's vocabulary

    What the specification calls trimming, the sum of the bytes of a span and
    a 4-byte little-endian unsigned integer, written down independently of
    the code, to compare the code with. *)

(** The buffer without its trailing NUL bytes. *)
Fixpoint trim_trailing_nuls (s : list byte) : list byte :=
  match s with
  | [] => []
  | x :: s' =>
      match trim_trailing_nuls s' with
      | [] => if byte_eqb x NUL then [] else [x]
      | r => x :: r
      end
  end.

(** The sum of the bytes, each an unsigned value 0..255. *)
Definition byte_sum (s : list byte) : Z :=
  fold_right (fun b acc => byte_val b + acc) 0 s.

(** The sum of the bytes as the target's plain [char] values. *)
Definition char_sum (t : Target) (s : list byte) : Z :=
  fold_right (fun b acc => char_to_int t b + acc) 0 s.

Definition le32 (v : Z) : list byte := object_repr 4 (v mod 2 ^ 32).

(** A decimal digit, and one other than 0. *)
Definition is_digit (b : byte) : Prop := 48 <= byte_val b <= 57.
Definition is_nonzero_digit (b : byte) : Prop := 49 <= byte_val b <= 57.

(** One or more dot-separated groups of digits, the first group not
    starting with 0: a first group [d :: ds] and further groups, each
    non-empty and written after a dot. *)
Definition version_shape (s : list byte) : Prop :=
  exists d ds groups,
    s = (d :: ds) ++ concat (map (cons DOT) groups) /\
    is_nonzero_digit d /\ Forall is_digit ds /\
    Forall (fun g => g <> [] /\ Forall is_digit g) groups.

(** Stripping the quote characters that surround a value. *)
Fixpoint strip_leading_quotes (s : list byte) : list byte :=
  match s with
  | [] => []
  | x :: s' => if byte_eqb x QUOTE then strip_leading_quotes s' else s
  end.

Definition strip_surrounding_quotes (s : list byte) : list byte :=
  reverse (strip_leading_quotes (reverse (strip_leading_quotes s))).

(** The version reader as the specification states it, for the extracted
    property value [value] and the result [r] of the call. *)
Definition ReadVersion_as_stated (value : list byte) (r : Result (list byte))
  : Prop :=
  if decide (value = bytes "None") then r = Ok (bytes "0.0.0")
  else
    let v := strip_surrounding_quotes value in
    (version_shape v -> r = Ok v) /\
    (~ version_shape v -> exists message, r = CF_ERR message).

(** Renaming a bootconfig key back to its cmdline form: a leading
    [kernel.] is dropped. *)
Definition strip_kernel_prefix (token : list byte) : list byte :=
  if starts_with (bytes "kernel.") token then drop 7 token else token.

(** What [OverrideBoolArg] makes of one argument. *)
Definition override_arg (argument : list byte) : list byte :=
  let value := Start.IsBoolArg argument in
  if Start.is_bool_flag value
  then Start.FormatBoolString (Start.name value) (Start.bool_flag_value value)
  else argument.

(** * Properties *)

(** ** Bytes and integer encodings *)

Lemma byte_val_range b : 0 <= byte_val b < 256.
Proof. unfold byte_val. pose proof (Byte.to_N_bounded b). lia. Qed.

Lemma byte_of_Z_val b : byte_of_Z (byte_val b) = b.
Proof. unfold byte_of_Z, byte_val. by rewrite N2Z.id, Byte.of_to_N. Qed.

Lemma byte_val_of_Z z : 0 <= z < 256 -> byte_val (byte_of_Z z) = z.
Proof.
  intros Hz. unfold byte_of_Z, byte_val.
  destruct (Byte.of_N (Z.to_N z)) as [b|] eqn:E.
  - apply Byte.to_of_N in E. lia.
  - apply Byte.of_N_None_iff in E. lia.
Qed.

Lemma byte_eqb_eq a b : byte_eqb a b = true <-> a = b.
Proof.
  split; [apply Byte.byte_dec_bl | apply Byte.byte_dec_lb].
Qed.

Lemma byte_eqb_neq a b : byte_eqb a b = false <-> a <> b.
Proof.
  rewrite <- byte_eqb_eq. destruct (byte_eqb a b); split; congruence.
Qed.

Lemma byte_eqb_refl a : byte_eqb a a = true.
Proof. by apply byte_eqb_eq. Qed.

Lemma object_repr_length n v : length (object_repr n v) = n.
Proof. revert v. induction n as [|n IH]; intros v; simpl; [done|]. by rewrite IH. Qed.

Lemma take_object_repr m n v :
  (m <= n)%nat -> take m (object_repr n v) = object_repr m v.
Proof.
  revert n v. induction m as [|m IH]; intros n v Hle; [done|].
  destruct n as [|n]; [lia|]. simpl. f_equal. apply IH. lia.
Qed.

Lemma le_decode_object_repr n v :
  le_decode (object_repr n v) = v mod 256 ^ Z.of_nat n.
Proof.
  revert v. induction n as [|n IH]; intros v.
  - simpl. by rewrite Z.mod_1_r.
  - cbn [object_repr le_decode]. rewrite IH.
    rewrite byte_val_of_Z by (apply Z.mod_pos_bound; lia).
    rewrite Nat2Z.inj_succ, Z.pow_succ_r by lia.
    rewrite Z.rem_mul_r by lia. done.
Qed.

Lemma object_repr_congr n v w :
  v mod 256 ^ Z.of_nat n = w mod 256 ^ Z.of_nat n ->
  object_repr n v = object_repr n w.
Proof.
  revert v w. induction n as [|n IH]; intros v w Heq; [done|].
  rewrite Nat2Z.inj_succ, Z.pow_succ_r in Heq by lia.
  assert (Hp : 0 < 256 ^ Z.of_nat n) by (apply Z.pow_pos_nonneg; lia).
  rewrite !Z.rem_mul_r in Heq by lia.
  pose proof (Z.mod_pos_bound v 256 ltac:(lia)) as Hv.
  pose proof (Z.mod_pos_bound w 256 ltac:(lia)) as Hw.
  cbn [object_repr]. f_equal.
  - f_equal. lia.
  - apply IH. lia.
Qed.

(** The first four bytes of an 8-byte little-endian object are the
    little-endian encoding of its value modulo [2^32]. *)
Lemma write_low_half v :
  take 4 (object_repr 8 (uint64_t v)) = object_repr 4 (uint32_t v).
Proof.
  rewrite take_object_repr by lia. unfold uint64_t, uint32_t.
  apply object_repr_congr. change (256 ^ Z.of_nat 4) with (2 ^ 32).
  rewrite Z.mod_mod by lia.
  apply Z.mod_mod_divide. exists (2 ^ 32). reflexivity.
Qed.

(** ** The accumulated buffer and its trimming *)

Lemma read_into_at_end (pre data rest : list byte) n :
  n = length pre ->
  read_into (pre ++ replicate (length data) NUL ++ rest) n data
  = pre ++ data ++ rest.
Proof.
  intros ->. unfold read_into.
  rewrite <- (Nat.add_0_r (length pre)), list_inserts_app_r.
  by rewrite list_inserts_0_r by (by rewrite length_replicate).
Qed.

Lemma accumulated_bootconfig_app vendor persistent :
  accumulated_bootconfig vendor persistent
  = BOOTCONFIG_PREAMBLE ++ vendor ++ persistent.
Proof.
  unfold accumulated_bootconfig.
  generalize BOOTCONFIG_PREAMBLE as P. intros P.
  rewrite resize_spec, take_ge by lia.
  replace (length P + (length vendor + length persistent) - length P)%nat
    with (length vendor + length persistent)%nat by lia.
  rewrite replicate_add, read_into_at_end by done.
  rewrite (app_assoc P vendor).
  rewrite <- (app_nil_r (replicate (length persistent) NUL)).
  rewrite read_into_at_end by (by rewrite length_app).
  by rewrite app_nil_r, <- app_assoc.
Qed.

Lemma find_last_not_of_replicate k c :
  find_last_not_of (replicate k c) c = None.
Proof.
  induction k as [|k IH]; [done|]. simpl. by rewrite IH, byte_eqb_refl.
Qed.

Lemma find_last_not_of_app_last pre x k c :
  x <> c -> find_last_not_of (pre ++ x :: replicate k c) c = Some (length pre).
Proof.
  intros Hx. induction pre as [|a pre IH]; simpl.
  - rewrite find_last_not_of_replicate.
    apply byte_eqb_neq in Hx. by rewrite Hx.
  - by rewrite IH.
Qed.

Lemma find_last_not_of_None s c :
  find_last_not_of s c = None -> s = replicate (length s) c.
Proof.
  induction s as [|a s IH]; [done|]. simpl.
  destruct (find_last_not_of s c); [done|].
  destruct (byte_eqb a c) eqn:E; [|done].
  apply byte_eqb_eq in E as ->. intros _. f_equal. by apply IH.
Qed.

Lemma find_last_not_of_Some s c i :
  find_last_not_of s c = Some i ->
  exists x k, x <> c /\ s = take i s ++ x :: replicate k c.
Proof.
  revert i. induction s as [|a s IH]; intros i; [done|]. simpl.
  destruct (find_last_not_of s c) as [j|] eqn:E.
  - intros [= <-]. destruct (IH j eq_refl) as (x & k & Hx & Hs).
    exists x, k. split; [done|]. simpl. by rewrite <- Hs.
  - destruct (byte_eqb a c) eqn:Ea; [done|]. intros [= <-].
    exists a, (length s). split; [by apply byte_eqb_neq|].
    simpl. f_equal. by apply find_last_not_of_None.
Qed.

Lemma find_last_not_of_app_None a b c :
  find_last_not_of (a ++ b) c = None -> find_last_not_of a c = None.
Proof.
  induction a as [|x a IH]; [done|]. simpl.
  destruct (find_last_not_of (a ++ b) c); [done|].
  rewrite IH by done. by destruct (byte_eqb x c).
Qed.

(** What [erase(find_last_not_of('\0'))] keeps: the bytes before the last
    byte that is not NUL. *)
Lemma trim_padding_Some s r :
  trim_padding s = Some r <->
  exists x k, x <> NUL /\ s = r ++ x :: replicate k NUL.
Proof.
  unfold trim_padding, erase. split.
  - destruct (find_last_not_of s NUL) as [i|] eqn:E; [|done].
    destruct (find_last_not_of_Some _ _ _ E) as (x & k & Hx & Hs).
    destruct (i <=? length s)%nat; [|done]. intros [= <-]. eauto.
  - intros (x & k & Hx & ->).
    rewrite find_last_not_of_app_last by done.
    rewrite length_app. simpl.
    destruct (Nat.leb_spec (length r) (length r + S (length (replicate k NUL))));
      [|lia].
    by rewrite take_app_length.
Qed.

Lemma trim_padding_None s :
  trim_padding s = None <-> s = replicate (length s) NUL.
Proof.
  split.
  - unfold trim_padding, erase.
    destruct (find_last_not_of s NUL) as [i|] eqn:E.
    + destruct (find_last_not_of_Some _ _ _ E) as (x & k & Hx & Hs).
      destruct (Nat.leb_spec i (length s)); [done|].
      rewrite take_ge in Hs by lia.
      apply (f_equal length) in Hs. rewrite length_app in Hs. simpl in Hs. lia.
    + intros _. by apply find_last_not_of_None.
  - intros ->. unfold trim_padding.
    by rewrite find_last_not_of_replicate.
Qed.

Lemma trim_padding_shorter s r :
  trim_padding s = Some r -> (length r < length s)%nat.
Proof.
  intros (x & k & _ & ->)%trim_padding_Some.
  rewrite length_app. simpl. lia.
Qed.

Lemma trim_trailing_nuls_replicate k :
  trim_trailing_nuls (replicate k NUL) = [].
Proof. induction k as [|k IH]; [done|]. simpl. by rewrite IH. Qed.

Lemma trim_trailing_nuls_app_last r x k :
  x <> NUL -> trim_trailing_nuls (r ++ x :: replicate k NUL) = r ++ [x].
Proof.
  intros Hx. induction r as [|a r IH]; simpl.
  - rewrite trim_trailing_nuls_replicate.
    apply byte_eqb_neq in Hx. by rewrite Hx.
  - rewrite IH. by destruct r.
Qed.

(** The preamble always leaves something to find. *)
Lemma trim_padding_accumulated vendor persistent :
  exists config, trim_padding (accumulated_bootconfig vendor persistent)
                 = Some config.
Proof.
  destruct (trim_padding (accumulated_bootconfig vendor persistent))
    as [config|] eqn:E; [eauto|].
  exfalso. rewrite accumulated_bootconfig_app in E.
  apply trim_padding_None in E.
  assert (F : find_last_not_of
                (BOOTCONFIG_PREAMBLE ++ vendor ++ persistent) NUL = None)
    by (rewrite E; apply find_last_not_of_replicate).
  apply find_last_not_of_app_None in F. vm_compute in F. done.
Qed.

(** C2, as the code has it: whatever the two bootconfig blobs are, the trim
    of line 435 keeps the buffer only up to, and without, its last byte that
    is not NUL.  The emitted config is therefore one byte short of the
    buffer with its trailing NUL bytes removed: that last byte [x] is lost
    with the padding. *)
Theorem trim_padding_drops_last_byte vendor persistent :
  exists config x,
    trim_padding (accumulated_bootconfig vendor persistent) = Some config /\
    x <> NUL /\
    trim_trailing_nuls (BOOTCONFIG_PREAMBLE ++ vendor ++ persistent)
    = config ++ [x].
Proof.
  destruct (trim_padding_accumulated vendor persistent) as [config E].
  pose proof E as (x & k & Hx & Hs)%trim_padding_Some.
  exists config, x. split; [done|]. split; [done|].
  rewrite <- accumulated_bootconfig_app, Hs.
  by apply trim_trailing_nuls_app_last.
Qed.

(** With both blobs empty the preamble loses its final newline. *)
Example trim_padding_empty_blobs :
  trim_padding (accumulated_bootconfig [] [])
  = Some (bytes "androidboot.slot_suffix=_a" ++ [LF] ++
          bytes "androidboot.force_normal_boot=1" ++ [LF] ++
          bytes "androidboot.verifiedbootstate=orange")
  /\ trim_trailing_nuls (BOOTCONFIG_PREAMBLE ++ [] ++ [])
     = BOOTCONFIG_PREAMBLE.
Proof. split; reflexivity. Qed.

(** Embedded NUL bytes do survive; the padding and one more byte go. *)
Example trim_padding_embedded_nul :
  trim_padding [x41; x00; x42; x43; x00; x00] = Some [x41; x00; x42]
  /\ trim_trailing_nuls [x41; x00; x42; x43; x00; x00] = [x41; x00; x42; x43].
Proof. split; reflexivity. Qed.

Lemma trim_trailing_nuls_idempotent s :
  trim_trailing_nuls (trim_trailing_nuls s) = trim_trailing_nuls s.
Proof.
  induction s as [|a s IH]; [done|]. simpl.
  destruct (trim_trailing_nuls s) as [|b r] eqn:E.
  - destruct (byte_eqb a NUL) eqn:Ea; [done|]. simpl. by rewrite Ea.
  - cbn [trim_trailing_nuls] in IH |- *. cbn [trim_trailing_nuls].
    change (trim_trailing_nuls (a :: b :: r))
      with (match trim_trailing_nuls (b :: r) with
            | [] => if byte_eqb a NUL then [] else [a]
            | r' => a :: r'
            end).
    by rewrite IH.
Qed.

(** C3, as the code has it: on a buffer holding a byte that is not NUL, the
    trim of line 435 applied a second time never gives what the first
    application gave: it cuts again, or throws when nothing but NUL bytes is
    left. *)
Theorem trim_padding_twice_differs (s : list byte) :
  Exists (fun b => b <> NUL) s ->
  trim_padding s ≫= trim_padding <> trim_padding s.
Proof.
  intros Hex.
  destruct (trim_padding s) as [r|] eqn:E.
  - simpl. destruct (trim_padding r) as [r'|] eqn:E'; [|done].
    apply trim_padding_shorter in E'. intros [= ->]. lia.
  - apply trim_padding_None in E. exfalso.
    apply Exists_exists in Hex as (b & Hin & Hb).
    rewrite E in Hin. by apply elem_of_replicate in Hin as [-> _].
Qed.

Lemma trim_padding_twice_differs_witness :
  Exists (fun b => b <> NUL) (bytes "ab") /\
  trim_padding (bytes "ab") ≫= trim_padding <> trim_padding (bytes "ab").
Proof.
  assert (H : Exists (fun b => b <> NUL) (bytes "ab"))
    by (apply Exists_cons_hd; discriminate).
  split; [exact H | exact (trim_padding_twice_differs _ H)].
Defined.

(** The buffer "ab" shrinks with every application until the trim throws. *)
Example trim_padding_ab :
  trim_padding (bytes "ab") = Some (bytes "a")
  /\ trim_padding (bytes "a") = Some []
  /\ trim_padding [] = None.
Proof. repeat split; reflexivity. Qed.

(** ** The checksum loop *)

Lemma checksum_loop t s a :
  fold_left (fun csum c => uint32_t (csum + char_to_int t c)) s (uint32_t a)
  = uint32_t (a + char_sum t s).
Proof.
  revert a. induction s as [|c s IH]; intros a; simpl.
  - by rewrite Z.add_0_r.
  - rewrite IH. unfold uint32_t.
    rewrite <- Z.add_assoc. apply Z.add_mod_idemp_l. lia.
Qed.

(** The accumulator ends as the sum of the plain [char] values, wrapped. *)
Lemma bootconfig_csum_char_sum t s :
  bootconfig_csum t s = uint32_t (char_sum t s).
Proof. unfold bootconfig_csum. apply (checksum_loop t s 0). Qed.

Lemma char_sum_unsigned t s :
  char_is_signed t = false -> char_sum t s = byte_sum s.
Proof.
  intros Hu. induction s as [|c s IH]; [done|]. simpl. rewrite IH.
  unfold char_to_int. by rewrite Hu.
Qed.

Lemma char_sum_ascii t s :
  Forall (fun b => byte_val b < 128) s -> char_sum t s = byte_sum s.
Proof.
  induction 1 as [|c s Hc _ IH]; [done|]. simpl. rewrite IH.
  unfold char_to_int.
  destruct (Z.leb_spec 128 (byte_val c)); [lia|]. by rewrite andb_false_r.
Qed.

(** Where plain [char] is unsigned, and on every target for 7-bit text, the
    accumulator is the wrapped sum of the unsigned byte values. *)
Lemma bootconfig_csum_unsigned t s :
  char_is_signed t = false \/ Forall (fun b => byte_val b < 128) s ->
  bootconfig_csum t s = byte_sum s mod 2 ^ 32.
Proof.
  intros H. rewrite bootconfig_csum_char_sum. unfold uint32_t. f_equal.
  destruct H; [by apply char_sum_unsigned | by apply char_sum_ascii].
Qed.

(** Where plain [char] is signed, every byte from 0x80 up counts 256 less. *)
Lemma char_sum_signed s :
  char_sum x86_64_linux s
  = byte_sum s
    - 256 * Z.of_nat (length (filter (fun b => 128 <= byte_val b) s)).
Proof.
  induction s as [|c s IH]; [done|].
  change (char_sum x86_64_linux (c :: s))
    with (char_to_int x86_64_linux c + char_sum x86_64_linux s).
  change (byte_sum (c :: s)) with (byte_val c + byte_sum s).
  rewrite IH, filter_cons.
  unfold char_to_int. cbn [char_is_signed x86_64_linux andb].
  destruct (Z.leb_spec 128 (byte_val c)).
  - rewrite decide_True by done. cbn [length]. lia.
  - rewrite decide_False by lia. lia.
Qed.

(** ** The layout of the written image *)

Lemma fields_of_image (front len4 csum4 magic : list byte) :
  length len4 = 4%nat -> length csum4 = 4%nat -> length magic = 12%nat ->
  let image := front ++ len4 ++ csum4 ++ magic in
  length_field image = len4 /\ checksum_field image = csum4
  /\ magic_field image = magic.
Proof.
  intros Hl Hc Hm image. unfold length_field, checksum_field, magic_field.
  assert (Hlen : length image = (length front + 20)%nat)
    by (unfold image; rewrite !length_app; lia).
  rewrite Hlen. repeat split.
  - replace (length front + 20 - 20)%nat with (length front) by lia.
    unfold image. rewrite drop_app_length.
    rewrite <- Hl. apply take_app_length.
  - replace (length front + 20 - 16)%nat
      with (length (front ++ len4)) by (rewrite length_app; lia).
    unfold image. rewrite (app_assoc front len4), drop_app_length.
    rewrite <- Hc. apply take_app_length.
  - replace (length front + 20 - 12)%nat
      with (length (front ++ len4 ++ csum4)) by (rewrite !length_app; lia).
    unfold image.
    replace (front ++ len4 ++ csum4 ++ magic)
      with ((front ++ len4 ++ csum4) ++ magic) by (by rewrite <- !app_assoc).
    apply drop_app_length.
Qed.

(** With both ramdisks non-empty every insertion reaches the file. *)
Lemma RepackGem5BootImage_written t boot vendor_rd vendor persistent :
  boot <> [] -> vendor_rd <> [] ->
  exists config,
    trim_padding (accumulated_bootconfig vendor persistent) = Some config /\
    RepackGem5BootImage t boot vendor_rd vendor persistent
    = Some ((boot ++ vendor_rd ++ config)
            ++ object_repr 4 (uint32_t (Z.of_nat (length config)))
            ++ object_repr 4 (bootconfig_csum t config)
            ++ BOOTCONFIG_MAGIC).
Proof.
  intros Hb Hv.
  destruct (trim_padding_accumulated vendor persistent) as [config E].
  exists config. split; [done|].
  unfold RepackGem5BootImage. rewrite E.
  destruct boot as [|b boot]; [done|]. destruct vendor_rd as [|v vendor_rd]; [done|].
  unfold put_string, put_rdbuf, write, ofstream_trunc.
  cbn [good written]. rewrite write_low_half.
  rewrite (take_ge (object_repr 4 _)) by (by rewrite object_repr_length).
  f_equal. rewrite app_nil_l. by rewrite <- !app_assoc.
Qed.

(** An empty ramdisk sets [failbit], and nothing after it is written: no
    config, no length, no checksum, no magic. *)
Lemma RepackGem5BootImage_empty_ramdisk t boot vendor persistent :
  RepackGem5BootImage t boot [] vendor persistent = Some boot.
Proof.
  destruct (trim_padding_accumulated vendor persistent) as [config E].
  unfold RepackGem5BootImage. rewrite E.
  by destruct boot.
Qed.

Lemma object_repr_uint32 v : object_repr 4 (uint32_t v) = le32 v.
Proof. reflexivity. Qed.

(** Trimming never grows: the trailing NUL bytes of a buffer are at most
    those of its last part. *)
Lemma trim_trailing_nuls_cons_length x s :
  (length (trim_trailing_nuls (x :: s)) <= S (length (trim_trailing_nuls s)))%nat.
Proof.
  cbn [trim_trailing_nuls].
  destruct (trim_trailing_nuls s) as [|b r].
  - destruct (byte_eqb x NUL); simpl; lia.
  - simpl. lia.
Qed.

Lemma trim_trailing_nuls_app_length a b :
  (length (trim_trailing_nuls (a ++ b))
   <= length (a ++ trim_trailing_nuls b))%nat.
Proof.
  induction a as [|x a IH]; [done|].
  pose proof (trim_trailing_nuls_cons_length x (a ++ b)) as H.
  change ((x :: a) ++ b) with (x :: (a ++ b)).
  change (length ((x :: a) ++ trim_trailing_nuls b))
    with (S (length (a ++ trim_trailing_nuls b))).
  lia.
Qed.

(** The emitted config is the buffer without its trailing NUL bytes and
    without the byte before them. *)
Lemma trim_padding_removelast vendor persistent :
  trim_padding (accumulated_bootconfig vendor persistent)
  = Some (removelast
            (trim_trailing_nuls (BOOTCONFIG_PREAMBLE ++ vendor ++ persistent)))
  /\ trim_trailing_nuls (BOOTCONFIG_PREAMBLE ++ vendor ++ persistent) <> [].
Proof.
  destruct (trim_padding_accumulated vendor persistent) as [config E].
  pose proof E as (x & k & Hx & Hs)%trim_padding_Some.
  rewrite <- accumulated_bootconfig_app, Hs.
  rewrite trim_trailing_nuls_app_last by done.
  rewrite removelast_last. split; [by rewrite <- Hs|].
  by destruct config.
Qed.

(** Two lengths one apart have different 4-byte encodings. *)
Lemma le32_succ_ne (n : nat) : le32 (Z.of_nat n) <> le32 (Z.of_nat (S n)).
Proof.
  intros H. apply (f_equal le_decode) in H. unfold le32 in H.
  rewrite !le_decode_object_repr in H.
  change (256 ^ Z.of_nat 4) with (2 ^ 32) in H.
  rewrite !Z.mod_mod in H by lia.
  rewrite Nat2Z.inj_succ in H.
  pose proof (Z.div_mod (Z.of_nat n) (2 ^ 32) ltac:(lia)) as H1.
  pose proof (Z.div_mod (Z.succ (Z.of_nat n)) (2 ^ 32) ltac:(lia)) as H2.
  change (2 ^ 32) with 4294967296 in *. lia.
Qed.

(** C4, as the code has it.  Write [claimed] for the config of the
    specification, the accumulated buffer without its trailing NUL bytes, and
    [config] for [claimed] without its last byte.  Whatever the four input
    streams hold, the function returns, and the image is fixed by them:
    - with both ramdisks non-empty it is the two ramdisks, then [config],
      then the little-endian encoding of the length of [config] modulo
      [2^32], then the checksum of [config] (the wrapped sum of its bytes
      as plain [char] values), then the magic, and the last 20 bytes read
      back as these three fields;
    - with an empty boot ramdisk it is empty, with an empty vendor ramdisk
      it is the boot ramdisk alone: there is no length field at all.
    The length field is therefore never the encoding of the length of
    [claimed]: [config] is one byte short of it (the defect of line 435), and
    shorter too than the preamble, the vendor blob and the trimmed
    persistent blob put together. *)
Theorem RepackGem5BootImage_length_field t boot vendor_rd vendor persistent :
  let claimed :=
    trim_trailing_nuls (BOOTCONFIG_PREAMBLE ++ vendor ++ persistent) in
  let config := removelast claimed in
  let len4 := le32 (Z.of_nat (length config)) in
  let csum4 := le32 (char_sum t config) in
  exists image,
    RepackGem5BootImage t boot vendor_rd vendor persistent = Some image /\
    match boot, vendor_rd with
    | [], _ => image = []
    | _ :: _, [] => image = boot
    | _ :: _, _ :: _ =>
        image = boot ++ vendor_rd ++ config ++ len4 ++ csum4
                ++ BOOTCONFIG_MAGIC /\
        length_field image = len4 /\
        checksum_field image = csum4 /\
        magic_field image = BOOTCONFIG_MAGIC
    end /\
    length len4 = 4%nat /\
    le_decode len4 = Z.of_nat (length config) mod 2 ^ 32 /\
    length claimed = S (length config) /\
    (length config
     < length (BOOTCONFIG_PREAMBLE ++ vendor ++ trim_trailing_nuls persistent))%nat /\
    len4 <> le32 (Z.of_nat (length claimed)).
Proof.
  intros claimed config len4 csum4.
  destruct (trim_padding_removelast vendor persistent) as [E Hne].
  fold claimed in E, Hne. fold config in E.
  assert (Hlen : length claimed = S (length config)).
  { unfold config. destruct (exists_last Hne) as (r & x & ->).
    rewrite removelast_last, length_app. simpl. lia. }
  assert (Himg : exists image,
             RepackGem5BootImage t boot vendor_rd vendor persistent
             = Some image /\
             match boot, vendor_rd with
             | [], _ => image = []
             | _ :: _, [] => image = boot
             | _ :: _, _ :: _ =>
                 image = boot ++ vendor_rd ++ config ++ len4 ++ csum4
                         ++ BOOTCONFIG_MAGIC /\
                 length_field image = len4 /\
                 checksum_field image = csum4 /\
                 magic_field image = BOOTCONFIG_MAGIC
             end).
  { destruct boot as [|b boot].
    { exists []. split; [|done]. unfold RepackGem5BootImage. by rewrite E. }
    destruct vendor_rd as [|v vendor_rd].
    { exists (b :: boot). split; [|done].
      apply RepackGem5BootImage_empty_ramdisk. }
    destruct (RepackGem5BootImage_written t (b :: boot) (v :: vendor_rd)
                vendor persistent) as (config' & E' & Hw); [done.. |].
    rewrite E in E'. injection E' as <-.
    rewrite bootconfig_csum_char_sum in Hw.
    change (object_repr 4 (uint32_t (Z.of_nat (length config)))) with len4 in Hw.
    change (object_repr 4 (uint32_t (char_sum t config))) with csum4 in Hw.
    eexists. split; [exact Hw|].
    destruct (fields_of_image ((b :: boot) ++ (v :: vendor_rd) ++ config)
                len4 csum4 BOOTCONFIG_MAGIC)
      as (Hl & Hc & Hm); [apply object_repr_length.. | done |].
    split_and!; [by rewrite <- !app_assoc | done..]. }
  destruct Himg as (image & Hrun & Hshape).
  exists image. split_and!; [done | done | apply object_repr_length | | done | |].
  - unfold len4, le32. rewrite le_decode_object_repr.
    change (256 ^ Z.of_nat 4) with (2 ^ 32). apply Z.mod_mod. lia.
  - pose proof (trim_trailing_nuls_app_length
                  (BOOTCONFIG_PREAMBLE ++ vendor) persistent) as Hle.
    rewrite <- !app_assoc in Hle. fold claimed in Hle. lia.
  - rewrite Hlen. apply le32_succ_ne.
Qed.

(** The input of the divergence: after the preamble the vendor blob is
    [a=1] and the persistent blob is two NUL bytes.  The config of the
    specification has 99 bytes, whose length field would be [63 00 00 00]; the image
    holds [62 00 00 00], and its config ends in [a=]. *)
Lemma RepackGem5BootImage_length_field_witness :
  exists image,
    RepackGem5BootImage x86_64_linux [x01] [x02] (bytes "a=1") [x00; x00]
    = Some image /\
    trim_trailing_nuls (BOOTCONFIG_PREAMBLE ++ bytes "a=1" ++ [x00; x00])
    = BOOTCONFIG_PREAMBLE ++ bytes "a=1" /\
    length (BOOTCONFIG_PREAMBLE ++ bytes "a=1") = 99%nat /\
    le32 99 = [x63; x00; x00; x00] /\
    length_field image = [x62; x00; x00; x00] /\
    image = [x01; x02] ++ BOOTCONFIG_PREAMBLE ++ bytes "a="
            ++ [x62; x00; x00; x00] ++ checksum_field image
            ++ BOOTCONFIG_MAGIC.
Proof.
  destruct (RepackGem5BootImage_length_field x86_64_linux [x01] [x02]
              (bytes "a=1") [x00; x00])
    as (image & Hrun & (Himg & Hlen & Hcsum & _) & _).
  exists image.
  split_and!; [exact Hrun | reflexivity | reflexivity | reflexivity | |].
  - rewrite Hlen. reflexivity.
  - rewrite Hcsum. rewrite Himg at 1. reflexivity.
Defined.

(** The checksum field on any target: the wrapped sum of the bytes of the
    emitted config as plain [char] values; where plain [char] is unsigned,
    or the config is 7-bit text, that is the wrapped sum of the bytes. *)
Lemma RepackGem5BootImage_checksum_field t boot vendor_rd vendor persistent :
  boot <> [] -> vendor_rd <> [] ->
  exists image config,
    RepackGem5BootImage t boot vendor_rd vendor persistent = Some image /\
    trim_padding (accumulated_bootconfig vendor persistent) = Some config /\
    checksum_field image = le32 (char_sum t config) /\
    (char_is_signed t = false \/ Forall (fun b => byte_val b < 128) config ->
     checksum_field image = le32 (byte_sum config)).
Proof.
  intros Hb Hv.
  destruct (RepackGem5BootImage_written t _ _ vendor persistent Hb Hv)
    as (config & Htrim & Himg).
  eexists _, config. split; [exact Himg|]. split; [exact Htrim|].
  destruct (fields_of_image (boot ++ vendor_rd ++ config)
              (object_repr 4 (uint32_t (Z.of_nat (length config))))
              (object_repr 4 (bootconfig_csum t config)) BOOTCONFIG_MAGIC)
    as (_ & Hc & _); [apply object_repr_length.. | done |].
  rewrite Hc. split.
  - by rewrite bootconfig_csum_char_sum.
  - intros H. by rewrite bootconfig_csum_unsigned.
Qed.

(** C1, as the code has it where plain [char] is signed: a vendor
    bootconfig holding the two UTF-8 bytes C3 A9 and a newline.  The emitted
    config is the preamble followed by C3 A9; each of the two is added as a
    negative [char], so the checksum field holds DA 24 00 00, which is 512
    less than the sum of the bytes of the config, DA 26 00 00. *)
Theorem RepackGem5BootImage_checksum_signed_char :
  let config := BOOTCONFIG_PREAMBLE ++ [xc3; xa9] in
  exists image,
    RepackGem5BootImage x86_64_linux [x01] [x02] [xc3; xa9; x0a] []
    = Some image /\
    image = [x01] ++ [x02] ++ config
            ++ length_field image ++ checksum_field image ++ BOOTCONFIG_MAGIC /\
    checksum_field image = [xda; x24; x00; x00] /\
    le32 (byte_sum config) = [xda; x26; x00; x00] /\
    le32 (byte_sum config - 512) = [xda; x24; x00; x00].
Proof. eexists. repeat split; vm_compute; reflexivity. Qed.

(** The same input where plain [char] is unsigned. *)
Example RepackGem5BootImage_checksum_unsigned_char :
  option_map checksum_field
    (RepackGem5BootImage aarch64_linux [x01] [x02] [xc3; xa9; x0a] [])
  = Some [xda; x26; x00; x00].
Proof. vm_compute. reflexivity. Qed.

(** Both blobs empty: the image carries the preamble without its final
    newline, and a length field of 95. *)
Example RepackGem5BootImage_empty_blobs :
  RepackGem5BootImage x86_64_linux [x01] [x02] [] []
  = Some ([x01; x02] ++
          bytes "androidboot.slot_suffix=_a" ++ [LF] ++
          bytes "androidboot.force_normal_boot=1" ++ [LF] ++
          bytes "androidboot.verifiedbootstate=orange" ++
          [x5f; x00; x00; x00] ++ [x64; x25; x00; x00] ++
          bytes "#BOOTCONFIG" ++ [LF]).
Proof. vm_compute. reflexivity. Qed.

(** ** The commit guard *)

Lemma commit_guard_test tmp cur (fs : FS) content :
  fs !! tmp = Some content ->
  negb (FileExists cur fs)
  || negb (bool_decide (ReadFile cur fs = ReadFile tmp fs))
  = negb (bool_decide (fs !! cur = Some content)).
Proof.
  intros Htmp. unfold FileExists, ReadFile. rewrite Htmp. simpl.
  destruct (fs !! cur) as [c|] eqn:E; simpl.
  - f_equal. apply bool_decide_ext. split; congruence.
  - done.
Qed.

(** C5, amended: for a tmp file that exists under a name other than the
    final one.  Final file present with the same bytes: success is reported,
    no file other than the tmp file is touched, the removal of the tmp file
    is attempted, and the tmp file is gone when the kernel does not refuse
    the removal.  Final file missing or different: the tmp file is renamed
    over the final path and success is reported, unless the kernel refuses
    the rename, which is reported as failure and changes nothing. *)
Theorem DeleteTmpFileIfNotChanged_commits os tmp cur (fs : FS) content :
  tmp <> cur ->
  fs !! tmp = Some content ->
  (fs !! cur = Some content ->
   exists fs',
     DeleteTmpFileIfNotChanged os tmp cur fs = (true, fs') /\
     fs' = (RemoveFile os tmp fs).2 /\
     (forall p, p <> tmp -> fs' !! p = fs !! p) /\
     (unlink_refused os tmp = false -> fs' !! tmp = None)) /\
  (fs !! cur <> Some content ->
   rename_refused os tmp cur = false ->
   exists fs',
     DeleteTmpFileIfNotChanged os tmp cur fs = (true, fs') /\
     fs' !! cur = Some content /\ fs' !! tmp = None /\
     (forall p, p <> tmp -> p <> cur -> fs' !! p = fs !! p)) /\
  (fs !! cur <> Some content ->
   rename_refused os tmp cur = true ->
   DeleteTmpFileIfNotChanged os tmp cur fs = (false, fs)).
Proof.
  intros Hne Htmp. unfold DeleteTmpFileIfNotChanged.
  rewrite (commit_guard_test _ _ _ _ Htmp). split_and!.
  - intros Hcur. rewrite bool_decide_true by done. simpl.
    unfold RemoveFile. rewrite Htmp.
    destruct (unlink_refused os tmp) eqn:Hu; simpl.
    + exists fs. by split_and!.
    + exists (delete tmp fs). split_and!; try done.
      * intros p Hp. by rewrite lookup_delete_ne.
      * intros _. by rewrite lookup_delete_eq.
  - intros Hcur Hr. rewrite bool_decide_false by done. simpl.
    unfold RenameFile. rewrite Hr, Htmp.
    rewrite bool_decide_false by done. simpl.
    eexists. split; [done|]. split_and!.
    + by rewrite lookup_insert_eq.
    + rewrite lookup_insert_ne by done. by rewrite lookup_delete_eq.
    + intros p Hp Hp'.
      rewrite lookup_insert_ne by done. by rewrite lookup_delete_ne.
  - intros Hcur Hr. rewrite bool_decide_false by done. simpl.
    unfold RenameFile. by rewrite Hr.
Qed.

Lemma DeleteTmpFileIfNotChanged_commits_witness :
  let fs : FS := {[ "boot.img" := bytes "old"; "boot.img.tmp" := bytes "new" ]} in
  "boot.img.tmp" <> "boot.img" /\
  fs !! "boot.img.tmp" = Some (bytes "new") /\
  exists fs',
    DeleteTmpFileIfNotChanged permissive "boot.img.tmp" "boot.img" fs
    = (true, fs') /\
    fs' !! "boot.img" = Some (bytes "new") /\ fs' !! "boot.img.tmp" = None.
Proof.
  intros fs.
  assert (Hne : "boot.img.tmp" <> "boot.img") by discriminate.
  assert (Htmp : fs !! "boot.img.tmp" = Some (bytes "new")) by reflexivity.
  split; [exact Hne|]. split; [exact Htmp|].
  destruct (DeleteTmpFileIfNotChanged_commits permissive _ _ fs _ Hne Htmp)
    as (_ & Hrename & _).
  destruct Hrename as (fs' & Hrun & Hcur & Hgone & _);
    [discriminate | reflexivity |].
  exists fs'. by split_and!.
Defined.

(** C5 as stated: the final file holds the same bytes as the tmp file, the
    kernel refuses to unlink the tmp file; success is reported and the tmp
    file is still there. *)
Lemma DeleteTmpFileIfNotChanged_tmp_not_deleted :
  let os := {| rename_refused := fun _ _ => false;
               unlink_refused := fun _ => true |} in
  let fs : FS := {[ "boot.img" := bytes "same"; "boot.img.tmp" := bytes "same" ]} in
  fs !! "boot.img" = Some (bytes "same") /\
  fs !! "boot.img.tmp" = Some (bytes "same") /\
  DeleteTmpFileIfNotChanged os "boot.img.tmp" "boot.img" fs = (true, fs) /\
  ~ (exists fs',
       DeleteTmpFileIfNotChanged os "boot.img.tmp" "boot.img" fs = (true, fs')
       /\ fs' !! "boot.img.tmp" = None).
Proof.
  intros os fs.
  assert (Hrun : DeleteTmpFileIfNotChanged os "boot.img.tmp" "boot.img" fs
                 = (true, fs)) by reflexivity.
  split_and!; try reflexivity.
  intros (fs' & Hrun' & Hgone). rewrite Hrun in Hrun'.
  injection Hrun' as <-. discriminate Hgone.
Qed.

(** C10: when the final file exists and reads the same as the tmp file,
    success is reported whatever the removal of the tmp file returns; when
    the removal fails no file changes, so a tmp file that was there is
    still there. *)
Theorem DeleteTmpFileIfNotChanged_removal_best_effort os tmp cur (fs : FS) :
  FileExists cur fs = true ->
  ReadFile cur fs = ReadFile tmp fs ->
  DeleteTmpFileIfNotChanged os tmp cur fs = (true, (RemoveFile os tmp fs).2)
  /\ ((RemoveFile os tmp fs).1 = false ->
      DeleteTmpFileIfNotChanged os tmp cur fs = (true, fs)).
Proof.
  intros Hex Heq. unfold DeleteTmpFileIfNotChanged.
  rewrite Hex, bool_decide_true by done. simpl.
  destruct (RemoveFile os tmp fs) as [removed fs'] eqn:E. simpl.
  split; [done|]. intros ->. f_equal.
  unfold RemoveFile in E.
  destruct (unlink_refused os tmp); [congruence|].
  destruct (fs !! tmp); [discriminate | congruence].
Qed.

Lemma DeleteTmpFileIfNotChanged_removal_best_effort_witness :
  let os := {| rename_refused := fun _ _ => false;
               unlink_refused := fun _ => true |} in
  let fs : FS := {[ "vendor_boot.img" := bytes "v";
                    "vendor_boot.img.tmp" := bytes "v" ]} in
  FileExists "vendor_boot.img" fs = true /\
  ReadFile "vendor_boot.img" fs = ReadFile "vendor_boot.img.tmp" fs /\
  (RemoveFile os "vendor_boot.img.tmp" fs).1 = false /\
  DeleteTmpFileIfNotChanged os "vendor_boot.img.tmp" "vendor_boot.img" fs
  = (true, fs) /\
  fs !! "vendor_boot.img.tmp" = Some (bytes "v").
Proof.
  intros os fs.
  assert (Hex : FileExists "vendor_boot.img" fs = true) by reflexivity.
  assert (Heq : ReadFile "vendor_boot.img" fs
                = ReadFile "vendor_boot.img.tmp" fs) by reflexivity.
  assert (Hfail : (RemoveFile os "vendor_boot.img.tmp" fs).1 = false)
    by reflexivity.
  split; [exact Hex|]. split; [exact Heq|]. split; [exact Hfail|].
  split; [|reflexivity].
  exact (proj2 (DeleteTmpFileIfNotChanged_removal_best_effort
                  os "vendor_boot.img.tmp" "vendor_boot.img" fs Hex Heq) Hfail).
Defined.

(** ** The cpio magic probe *)

Lemma byte_val_inj a b : byte_val a = byte_val b -> a = b.
Proof.
  intros H. rewrite <- (byte_of_Z_val a), <- (byte_of_Z_val b). by rewrite H.
Qed.

Lemma memcmp_zero n a b :
  (n <= length a)%nat -> (n <= length b)%nat ->
  memcmp a b n = 0 <-> take n a = take n b.
Proof.
  revert a b. induction n as [|n IH]; intros a b Ha Hb;
    [split; intros _; reflexivity|].
  destruct a as [|x a]; [simpl in Ha; lia|].
  destruct b as [|y b]; [simpl in Hb; lia|].
  simpl in Ha, Hb. cbn [memcmp take].
  destruct (byte_eqb x y) eqn:E.
  - apply byte_eqb_eq in E as ->. rewrite IH by lia.
    split; [by intros -> | by intros [= ->]].
  - apply byte_eqb_neq in E. split.
    + intros H. destruct E. apply byte_val_inj. lia.
    + by intros [= -> _].
Qed.

Lemma IsCpioArchive_true path (fs : FS) :
  IsCpioArchive path fs = true <->
  exists content, fs !! path = Some content /\ take 6 content = CPIO_MAGIC.
Proof.
  unfold IsCpioArchive, Open, Read.
  change (length CPIO_MAGIC) with 6%nat.
  destruct (fs !! path) as [content|]; cycle 1.
  { cbv beta iota. split; [done | by intros (? & ? & ?)]. }
  cbv beta iota zeta.
  destruct (Nat.lt_ge_cases (length content) 6) as [Hshort|Hlong].
  - rewrite length_take, Nat.min_r by lia.
    destruct (Z.eqb_spec (Z.of_nat (length content)) (Z.of_nat 6)); [lia|].
    cbn [negb]. split; [done|]. intros (c & [= <-] & Hm).
    apply (f_equal length) in Hm. rewrite length_take in Hm.
    change (length CPIO_MAGIC) with 6%nat in Hm. lia.
  - rewrite length_take, Nat.min_l by lia.
    rewrite Z.eqb_refl. cbn [negb].
    change (drop 6 (replicate 6 NUL)) with (@nil byte). rewrite app_nil_r.
    rewrite Z.eqb_eq, memcmp_zero
      by (rewrite ?length_take; change (length CPIO_MAGIC) with 6%nat; lia).
    rewrite take_take, Nat.min_id.
    change (take 6 CPIO_MAGIC) with CPIO_MAGIC.
    split; [eauto | by intros (c & [= <-] & ?)].
Qed.

(** C6: the probe answers true exactly when the file can be opened and its
    first 6 bytes are "070701".  It answers true on a file beginning
    "070701", false on one beginning "070700", and false, never an error,
    when the file holds fewer than 6 bytes or cannot be opened. *)
Theorem IsCpioArchive_magic path (fs : FS) :
  (IsCpioArchive path fs = true <->
   exists content, fs !! path = Some content /\ take 6 content = bytes "070701")
  /\ (forall rest, fs !! path = Some (bytes "070701" ++ rest) ->
      IsCpioArchive path fs = true)
  /\ (forall rest, fs !! path = Some (bytes "070700" ++ rest) ->
      IsCpioArchive path fs = false)
  /\ (forall content, fs !! path = Some content ->
      (length content < 6)%nat -> IsCpioArchive path fs = false)
  /\ (fs !! path = None -> IsCpioArchive path fs = false).
Proof.
  split; [apply IsCpioArchive_true|]. split_and!.
  - intros rest H. apply IsCpioArchive_true. eauto.
  - intros rest H. apply not_true_is_false.
    intros (c & Hc & Hm)%IsCpioArchive_true.
    rewrite H in Hc. injection Hc as <-. discriminate Hm.
  - intros content H Hlen. apply not_true_is_false.
    intros (c & Hc & Hm)%IsCpioArchive_true.
    rewrite H in Hc. injection Hc as <-.
    apply (f_equal length) in Hm. rewrite length_take in Hm.
    change (length CPIO_MAGIC) with 6%nat in Hm. lia.
  - intros H. apply not_true_is_false.
    intros (c & Hc & _)%IsCpioArchive_true. congruence.
Qed.

Lemma IsCpioArchive_magic_witness :
  let fs : FS := {[ "ramdisk" := bytes "070701abcdef"; "short" := bytes "070" ]} in
  IsCpioArchive "ramdisk" fs = true /\ IsCpioArchive "short" fs = false.
Proof.
  intros fs. split.
  - apply (IsCpioArchive_magic "ramdisk" fs). exists (bytes "070701abcdef").
    split; reflexivity.
  - apply (proj1 (proj2 (proj2 (proj2 (IsCpioArchive_magic "short" fs))))
             (bytes "070")); [reflexivity | simpl; lia].
Defined.

Example IsCpioArchive_examples :
  IsCpioArchive "rd" ({[ "rd" := bytes "070701" ]} : FS) = true
  /\ IsCpioArchive "rd" ({[ "rd" := bytes "070700" ]} : FS) = false
  /\ IsCpioArchive "rd" ({[ "rd" := bytes "070" ]} : FS) = false
  /\ IsCpioArchive "rd" (∅ : FS) = false.
Proof. repeat split; reflexivity. Qed.

(** ** Key/value extraction *)

Lemma starts_with_prefix p s :
  starts_with p s = true <-> exists rest, s = p ++ rest.
Proof.
  revert s. induction p as [|a p IH]; intros s; simpl.
  - split; [eauto | done].
  - destruct s as [|b s].
    + split; [done | by intros (? & ?)].
    + rewrite andb_true_iff, byte_eqb_eq, IH. split.
      * intros (-> & rest & ->). eauto.
      * intros (rest & [= -> ->]). eauto.
Qed.

Lemma find_from_unfold base s key :
  find_from base s key
  = if starts_with key s then Some base
    else match s with
         | [] => None
         | _ :: s' => find_from (S base) s' key
         end.
Proof. by destruct s. Qed.

(** [find] returns the start of the first occurrence. *)
Lemma find_from_first base s key pre suf :
  s = pre ++ key ++ suf ->
  (forall pre' suf', s = pre' ++ key ++ suf' -> (length pre <= length pre')%nat) ->
  find_from base s key = Some (base + length pre)%nat.
Proof.
  revert base s. induction pre as [|a pre IH]; intros base s -> Hmin.
  - rewrite find_from_unfold.
    rewrite (proj2 (starts_with_prefix key _)) by eauto.
    simpl. f_equal. lia.
  - rewrite find_from_unfold.
    destruct (starts_with key ((a :: pre) ++ key ++ suf)) eqn:E.
    + apply starts_with_prefix in E as (rest & E').
      specialize (Hmin [] rest E'). simpl in Hmin. lia.
    + simpl. rewrite (IH (S base) _ eq_refl).
      * f_equal. lia.
      * intros pre' suf' E'.
        specialize (Hmin (a :: pre') suf'). simpl in Hmin.
        rewrite E' in Hmin. specialize (Hmin eq_refl). lia.
Qed.

Lemma find_from_absent base s key :
  (forall pre suf, s <> pre ++ key ++ suf) -> find_from base s key = None.
Proof.
  revert base. induction s as [|a s IH]; intros base Habs;
    rewrite find_from_unfold.
  - destruct (starts_with key []) eqn:E; [|done].
    apply starts_with_prefix in E as (rest & E'). by destruct (Habs [] rest).
  - destruct (starts_with key (a :: s)) eqn:E.
    + apply starts_with_prefix in E as (rest & E'). by destruct (Habs [] rest).
    + apply IH. intros pre suf ->. by apply (Habs (a :: pre) suf).
Qed.

Lemma find_char_from_found base v c rest :
  c ∉ v -> find_char_from base (v ++ c :: rest) c = Some (base + length v)%nat.
Proof.
  revert base. induction v as [|x v IH]; intros base Hnin; simpl.
  - rewrite byte_eqb_refl. f_equal. lia.
  - apply not_elem_of_cons in Hnin as [Hx Hv].
    rewrite (proj2 (byte_eqb_neq x c)) by congruence.
    rewrite IH by done. f_equal. lia.
Qed.

Lemma find_char_from_absent base s c :
  c ∉ s -> find_char_from base s c = None.
Proof.
  revert base. induction s as [|x s IH]; intros base Hnin; [done|]. simpl.
  apply not_elem_of_cons in Hnin as [Hx Hs].
  rewrite (proj2 (byte_eqb_neq x c)) by congruence. by apply IH.
Qed.

Lemma drop_past_key (pre key suf : list byte) :
  drop (length pre + length key) (pre ++ key ++ suf) = suf.
Proof.
  rewrite app_assoc, <- length_app. apply drop_app_length.
Qed.

(** C7: with [first] saying that [pre] is where the key first occurs,
    [ExtractValue] returns the bytes between the end of that occurrence and
    the next newline; it returns the empty string when no newline follows
    that occurrence, and when the key does not occur at all. *)
Theorem ExtractValue_first_match (dictionary key : list byte) :
  let first pre :=
    exists suf, dictionary = pre ++ key ++ suf /\
      forall pre' suf', dictionary = pre' ++ key ++ suf' ->
                        (length pre <= length pre')%nat in
  (forall pre value rest,
      first pre -> dictionary = pre ++ key ++ value ++ LF :: rest ->
      LF ∉ value -> ExtractValue dictionary key = value)
  /\ (forall pre suf,
      first pre -> dictionary = pre ++ key ++ suf -> LF ∉ suf ->
      ExtractValue dictionary key = [])
  /\ ((forall pre suf, dictionary <> pre ++ key ++ suf) ->
      ExtractValue dictionary key = []).
Proof.
  intros first. unfold ExtractValue, find. split_and!.
  - intros pre value rest (suf & Hd & Hmin) Hv Hnl.
    rewrite (find_from_first 0 _ _ pre suf Hd Hmin).
    clear Hd Hmin first. subst dictionary. cbn [Nat.add].
    unfold find_char, substr.
    rewrite drop_past_key, find_char_from_found by done.
    replace (length pre + length key + length value - length pre - length key)%nat
      with (length value) by lia.
    apply take_app_length.
  - intros pre suf (suf' & Hd & Hmin) Hs Hnl.
    rewrite (find_from_first 0 _ _ pre suf' Hd Hmin).
    clear Hd Hmin first. subst dictionary. cbn [Nat.add].
    unfold find_char.
    by rewrite drop_past_key, find_char_from_absent.
  - intros Habs. by rewrite find_from_absent.
Qed.

Lemma ExtractValue_first_match_witness :
  let dictionary :=
    bytes "a: 1" ++ [LF] ++ bytes "b: 2" ++ [LF] ++ bytes "b: 3" ++ [LF] in
  ExtractValue dictionary (bytes "b: ") = bytes "2".
Proof.
  intros dictionary.
  apply (proj1 (ExtractValue_first_match dictionary (bytes "b: "))
           (bytes "a: 1" ++ [LF]) (bytes "2") (bytes "b: 3" ++ [LF])).
  - exists (bytes "2" ++ [LF] ++ bytes "b: 3" ++ [LF]). split; [reflexivity|].
    intros pre' suf' E. simpl.
    do 5 (destruct pre' as [|? pre']; [discriminate E|]).
    simpl. lia.
  - reflexivity.
  - intros Hin. apply list_elem_of_singleton in Hin. discriminate Hin.
Defined.

(** The two examples of the specification. *)
Example ExtractValue_examples :
  ExtractValue (bytes "a: 1" ++ [LF] ++ bytes "b: 2" ++ [LF]) (bytes "b: ")
  = bytes "2"
  /\ ExtractValue (bytes "a: 1") (bytes "b: ") = [].
Proof. split; reflexivity. Qed.

(** ** Concatenating the ramdisks *)

Lemma put_rdbuf_twice (a b : list byte) :
  a <> [] -> written (put_rdbuf (put_rdbuf ofstream_trunc a) b) = a ++ b.
Proof.
  intros Ha. destruct a as [|x a]; [done|].
  unfold put_rdbuf, ofstream_trunc. cbn [good written].
  destruct b as [|y b]; cbn [good written]; [by rewrite app_nil_r | done].
Qed.

(** An empty first input sets [failbit]; the second input is not copied. *)
Lemma put_rdbuf_after_empty (b : list byte) :
  written (put_rdbuf (put_rdbuf ofstream_trunc []) b) = [].
Proof. reflexivity. Qed.

Lemma concatenate_ramdisks_written stripped modules new (fs : FS) :
  new <> stripped -> new <> modules ->
  ReadFile stripped fs <> [] ->
  concatenate_ramdisks stripped modules new fs
  = <[new := ReadFile stripped fs ++ ReadFile modules fs]> fs.
Proof.
  intros Hs Hm Hne. unfold concatenate_ramdisks, ReadFile in *.
  rewrite !lookup_insert_ne by done.
  rewrite put_rdbuf_twice by done. by rewrite insert_insert_eq.
Qed.

(** C9: when the unpack, the removal of lib/modules, the archiver and the
    compressor have all succeeded, leaving a non-empty stripped ramdisk,
    [RepackVendorRamdisk] returns with the new ramdisk path holding exactly
    the stripped ramdisk bytes followed by the kernel-modules ramdisk bytes,
    whatever that path held before, and with every other file as the
    compressor left it. *)
Theorem RepackVendorRamdisk_concatenates
    (HostBinaryPath : string -> string)
    (Execute : list string -> FS -> Z * FS)
    (Copy : string -> string -> FS -> bool * FS)
    (EnsureDirectoryExists : string -> FS -> bool * FS)
    (kernel_modules original new build_dir : string)
    (fs unpacked stripped_tree archived compressed : FS) :
  let stage := build_dir +:+ "/" +:+ TMP_RD_DIR in
  let stripped := build_dir +:+ "/" +:+ STRIPPED_RD in
  UnpackRamdisk HostBinaryPath Execute Copy EnsureDirectoryExists
    original stage fs = Some unpacked ->
  Execute ["rm"; "-rf"; stage +:+ "/lib/modules"] unpacked
  = (0, stripped_tree) ->
  Execute ["/bin/bash"; "-c";
           HostBinaryPath "mkbootfs" +:+ " " +:+ stage +:+ " > " +:+
           stripped +:+ CPIO_EXT] stripped_tree
  = (0, archived) ->
  Execute ["/bin/bash"; "-c";
           HostBinaryPath "lz4" +:+ " -c -l -12 --favor-decSpeed " +:+
           stripped +:+ CPIO_EXT +:+ " > " +:+ stripped] archived
  = (0, compressed) ->
  new <> stripped -> new <> kernel_modules ->
  ReadFile stripped compressed <> [] ->
  exists fs',
    RepackVendorRamdisk HostBinaryPath Execute Copy EnsureDirectoryExists
      kernel_modules original new build_dir fs = Some fs' /\
    fs' !! new = Some (ReadFile stripped compressed
                       ++ ReadFile kernel_modules compressed) /\
    forall p, p <> new -> fs' !! p = compressed !! p.
Proof.
  intros stage stripped Hunpack Hrm Hcpio Hlz4 Hs Hm Hne.
  unfold RepackVendorRamdisk. fold stage. rewrite Hunpack. simpl.
  rewrite Hrm. simpl. fold stripped. rewrite Hcpio. simpl.
  rewrite Hlz4. simpl.
  eexists. split; [done|].
  rewrite concatenate_ramdisks_written by done. split.
  - by rewrite lookup_insert_eq.
  - intros p Hp. by rewrite lookup_insert_ne.
Qed.

Lemma RepackVendorRamdisk_concatenates_witness :
  let fs : FS := {[ "modules.img" := bytes "MODULES";
                    "out/concatenated_vendor_ramdisk" := bytes "070701cpio";
                    "out/vendor_ramdisk_repacked" := bytes "stale" ]} in
  exists fs',
    RepackVendorRamdisk stub_HostBinaryPath stub_Execute stub_Copy
      stub_EnsureDirectoryExists
      "modules.img" "out/concatenated_vendor_ramdisk"
      "out/vendor_ramdisk_repacked" "out" fs = Some fs' /\
    fs' !! "out/vendor_ramdisk_repacked"
    = Some (bytes "LZ4-stripped" ++ bytes "MODULES").
Proof.
  intros fs.
  destruct (RepackVendorRamdisk_concatenates
              stub_HostBinaryPath stub_Execute stub_Copy
              stub_EnsureDirectoryExists
              "modules.img" "out/concatenated_vendor_ramdisk"
              "out/vendor_ramdisk_repacked" "out" fs
              _ _ _ _ eq_refl eq_refl eq_refl eq_refl)
    as (fs' & Hrun & Hnew & _); [discriminate | discriminate | discriminate |].
  exists fs'. split; [exact Hrun | exact Hnew].
Defined.

(** A first input without bytes stops the copy: the new ramdisk is empty. *)
Example concatenate_ramdisks_empty_stripped :
  concatenate_ramdisks "out/stripped_ramdisk" "modules.img" "out/new"
    ({[ "out/stripped_ramdisk" := []; "modules.img" := bytes "MODULES" ]} : FS)
  !! "out/new" = Some [].
Proof. reflexivity. Qed.

(** ** Regular expressions: the matcher decides the language *)

Lemma matches_empty_inv s : matches Empty s -> False.
Proof. inversion 1. Qed.

Lemma matches_epsilon_inv s : matches Epsilon s -> s = [].
Proof. by inversion 1. Qed.

Lemma matches_bracket_inv lo hi s :
  matches (Bracket lo hi) s -> exists c, s = [c] /\ in_range lo hi c = true.
Proof. inversion 1; subst; eauto. Qed.

Lemma matches_concat_inv r1 r2 s :
  matches (Concat r1 r2) s ->
  exists s1 s2, s = s1 ++ s2 /\ matches r1 s1 /\ matches r2 s2.
Proof. inversion 1; subst; eauto. Qed.

Lemma matches_alt_inv r1 r2 s :
  matches (Alt r1 r2) s -> matches r1 s \/ matches r2 s.
Proof. inversion 1; subst; eauto. Qed.

Lemma matches_star_inv r s :
  matches (Star r) s ->
  exists parts, s = concat parts /\ Forall (fun p => matches r p /\ p <> []) parts.
Proof.
  intros H. remember (Star r) as r' eqn:Er.
  induction H as [| | | | | r0 | r0 s1 s2 H1 _ H2 IH2]; try discriminate Er.
  - by exists [].
  - injection Er as ->. destruct (IH2 eq_refl) as (parts & -> & Hparts).
    destruct s1 as [|c s1].
    + by exists parts.
    + exists ((c :: s1) :: parts). split; [done|].
      constructor; [by split | done].
Qed.

Lemma matches_star_concat r parts :
  Forall (matches r) parts -> matches (Star r) (concat parts).
Proof.
  induction 1 as [|p parts Hp _ IH]; simpl; [constructor|].
  by apply m_star_app.
Qed.

Lemma nullable_matches r : nullable r = true <-> matches r [].
Proof.
  induction r as [| |lo hi|r1 IH1 r2 IH2|r1 IH1 r2 IH2|r IH]; simpl.
  - split; [done | by intros ?%matches_empty_inv].
  - split; [constructor | done].
  - split; [done | by intros (c & ? & _)%matches_bracket_inv].
  - rewrite andb_true_iff, IH1, IH2. split.
    + intros [H1 H2]. by apply (m_concat _ _ [] []).
    + intros (s1 & s2 & Hs & H1 & H2)%matches_concat_inv.
      symmetry in Hs. apply app_eq_nil in Hs as [-> ->]. done.
  - rewrite orb_true_iff, IH1, IH2. split.
    + intros [H|H]; [by apply m_alt_l | by apply m_alt_r].
    + apply matches_alt_inv.
  - split; [constructor | done].
Qed.

Lemma derivative_matches r c s :
  matches (derivative c r) s <-> matches r (c :: s).
Proof.
  revert s.
  induction r as [| |lo hi|r1 IH1 r2 IH2|r1 IH1 r2 IH2|r IH]; intros s; simpl.
  - split; by intros ?%matches_empty_inv.
  - split; [by intros ?%matches_empty_inv | by intros ?%matches_epsilon_inv].
  - destruct (in_range lo hi c) eqn:E.
    + split.
      * intros ->%matches_epsilon_inv. by constructor.
      * intros (c' & [= <- ->] & _)%matches_bracket_inv. constructor.
    + split; [by intros ?%matches_empty_inv|].
      intros (c' & [= <- ->] & ?)%matches_bracket_inv. congruence.
  - assert (Hfront : forall s1 s2, matches (derivative c r1) s1 -> matches r2 s2 ->
                                   matches (Concat r1 r2) (c :: s1 ++ s2)).
    { intros s1 s2 H1 H2. apply IH1 in H1. by apply (m_concat _ _ (c :: s1)). }
    destruct (nullable r1) eqn:N.
    + split.
      * intros [H|H]%matches_alt_inv.
        -- apply matches_concat_inv in H as (s1 & s2 & -> & H1 & H2). auto.
        -- apply IH2 in H. apply nullable_matches in N.
           by apply (m_concat _ _ [] (c :: s)).
      * intros (s1 & s2 & Hs & H1 & H2)%matches_concat_inv.
        destruct s1 as [|c' s1]; simpl in Hs.
        -- subst s2. apply m_alt_r. by apply IH2.
        -- injection Hs as <- ->. apply m_alt_l.
           apply m_concat; [by apply IH1 | done].
    + split.
      * intros (s1 & s2 & -> & H1 & H2)%matches_concat_inv. auto.
      * intros (s1 & s2 & Hs & H1 & H2)%matches_concat_inv.
        destruct s1 as [|c' s1]; simpl in Hs.
        -- apply nullable_matches in H1. congruence.
        -- injection Hs as <- ->. apply m_concat; [by apply IH1 | done].
  - split.
    + intros [H|H]%matches_alt_inv;
        [apply m_alt_l; by apply IH1 | apply m_alt_r; by apply IH2].
    + intros [H|H]%matches_alt_inv;
        [apply m_alt_l; by apply IH1 | apply m_alt_r; by apply IH2].
  - split.
    + intros (s1 & s2 & -> & H1 & H2)%matches_concat_inv.
      apply IH in H1. by apply (m_star_app _ (c :: s1)).
    + intros (parts & Hs & Hparts)%matches_star_inv.
      destruct Hparts as [|p parts [Hp Hne] Hparts]; [done|].
      destruct p as [|c' p]; [done|]. simpl in Hs. injection Hs as <- ->.
      apply m_concat; [by apply IH|].
      apply matches_star_concat.
      eapply Forall_impl; [exact Hparts|]. by intros ? [? _].
Qed.

Lemma regex_match_matches s r : regex_match s r = true <-> matches r s.
Proof.
  revert r. induction s as [|c s IH]; intros r; simpl.
  - apply nullable_matches.
  - rewrite IH. apply derivative_matches.
Qed.

(** ** The language of the version pattern *)

Lemma in_range_digit b : in_range DIGIT_0 DIGIT_9 b = true <-> is_digit b.
Proof.
  unfold in_range, is_digit. rewrite andb_true_iff, !Z.leb_le.
  change (byte_val DIGIT_0) with 48. change (byte_val DIGIT_9) with 57. done.
Qed.

Lemma in_range_nonzero_digit b :
  in_range DIGIT_1 DIGIT_9 b = true <-> is_nonzero_digit b.
Proof.
  unfold in_range, is_nonzero_digit. rewrite andb_true_iff, !Z.leb_le.
  change (byte_val DIGIT_1) with 49. change (byte_val DIGIT_9) with 57. done.
Qed.

Lemma in_range_dot b : in_range DOT DOT b = true <-> b = DOT.
Proof.
  unfold in_range. rewrite andb_true_iff, !Z.leb_le. split.
  - intros [H1 H2]. apply byte_val_inj. lia.
  - intros ->. lia.
Qed.

Lemma matches_digits s :
  matches (Star (Bracket DIGIT_0 DIGIT_9)) s <-> Forall is_digit s.
Proof.
  split.
  - intros (parts & -> & Hparts)%matches_star_inv.
    induction Hparts as [|p parts [Hp _] _ IH]; simpl; [constructor|].
    apply matches_bracket_inv in Hp as (c & -> & Hc). simpl.
    constructor; [by apply in_range_digit | done].
  - induction 1 as [|c s Hc _ IH]; [constructor|].
    apply (m_star_app _ [c] s); [|done].
    constructor. by apply in_range_digit.
Qed.

Lemma matches_digit_group s :
  matches (Plus (Bracket DIGIT_0 DIGIT_9)) s <-> s <> [] /\ Forall is_digit s.
Proof.
  unfold Plus. split.
  - intros (s1 & s2 & -> & H1 & H2)%matches_concat_inv.
    apply matches_bracket_inv in H1 as (c & -> & Hc).
    apply matches_digits in H2. split; [done|].
    constructor; [by apply in_range_digit | done].
  - intros [Hne Hall]. destruct Hall as [|c s Hc Hall]; [done|].
    apply (m_concat _ _ [c] s).
    + constructor. by apply in_range_digit.
    + by apply matches_digits.
Qed.

Lemma matches_dotted_groups s :
  matches (Star (Concat (Bracket DOT DOT) (Plus (Bracket DIGIT_0 DIGIT_9)))) s
  <-> exists groups,
        s = concat (map (cons DOT) groups) /\
        Forall (fun g => g <> [] /\ Forall is_digit g) groups.
Proof.
  split.
  - intros (parts & -> & Hparts)%matches_star_inv.
    induction Hparts as [|p parts [Hp _] _ (groups & Hg & Hall)].
    + by exists [].
    + apply matches_concat_inv in Hp as (s1 & g & -> & H1 & H2).
      apply matches_bracket_inv in H1 as (c & -> & ->%in_range_dot).
      apply matches_digit_group in H2.
      exists (g :: groups). split; [simpl; by rewrite Hg | by constructor].
  - intros (groups & -> & Hall).
    induction Hall as [|g groups Hg _ IH]; simpl; [constructor|].
    apply (m_star_app _ (DOT :: g)); [|done].
    apply (m_concat _ _ [DOT] g).
    + constructor. by apply in_range_dot.
    + by apply matches_digit_group.
Qed.

(** The pattern of line 498 accepts exactly the dotted versions. *)
Lemma VERSION_RE_language s :
  regex_match s VERSION_RE = true <-> version_shape s.
Proof.
  rewrite regex_match_matches. unfold VERSION_RE, version_shape. split.
  - intros (s1 & s' & -> & H1 & H')%matches_concat_inv.
    apply matches_concat_inv in H' as (ds & s3 & -> & H2 & H3).
    apply matches_bracket_inv in H1 as (d & -> & Hd%in_range_nonzero_digit).
    apply matches_digits in H2.
    apply matches_dotted_groups in H3 as (groups & -> & Hall).
    exists d, ds, groups. by split_and!.
  - intros (d & ds & groups & -> & Hd & Hds & Hall).
    change ((d :: ds) ++ concat (map (cons DOT) groups))
      with ([d] ++ ds ++ concat (map (cons DOT) groups)).
    apply m_concat; [constructor; by apply in_range_nonzero_digit|].
    apply m_concat; [by apply matches_digits|].
    apply matches_dotted_groups. eauto.
Qed.

Lemma erase_remove_filter s c :
  erase_remove s c = filter (fun b => b <> c) s.
Proof.
  induction s as [|x s IH]; [done|]. simpl. rewrite filter_cons, IH.
  destruct (byte_eqb x c) eqn:E.
  - apply byte_eqb_eq in E. by rewrite decide_False by (by intros ?).
  - apply byte_eqb_neq in E. by rewrite decide_True.
Qed.

(** ** Reading the Android version *)

Lemma AndroidVersionFromBootParams_cases boot_params :
  let value := ExtractValue boot_params OS_VERSION_KEY in
  let unquoted := filter (fun b => b <> QUOTE) value in
  let r := AndroidVersionFromBootParams boot_params in
  (value = bytes "None" -> r = Ok (bytes "0.0.0")) /\
  (value <> bytes "None" -> version_shape unquoted -> r = Ok unquoted) /\
  (value <> bytes "None" -> ~ version_shape unquoted ->
   exists message, r = CF_ERR message).
Proof.
  intros value unquoted r. subst r. unfold AndroidVersionFromBootParams.
  fold value. rewrite erase_remove_filter. fold unquoted. split_and!.
  - intros Hv. by rewrite bool_decide_true.
  - intros Hv Hshape. rewrite bool_decide_false by done.
    by rewrite (proj2 (VERSION_RE_language unquoted) Hshape).
  - intros Hv Hshape. rewrite bool_decide_false by done.
    destruct (regex_match unquoted VERSION_RE) eqn:E; [|eauto].
    by apply VERSION_RE_language in E.
Qed.

(** C8, amended: when the metadata dump succeeds, the reader maps the
    extracted value None to 0.0.0; otherwise it removes every single-quote
    character of the value, wherever it stands, and returns what is left if
    that is one or more dot-separated groups of digits with a first group
    not starting with 0; otherwise it fails with a validation error. *)
Theorem ReadAndroidVersionFromBootImage_version
    (HostBinaryPath : string -> string)
    (Command_stdout : list string -> FS -> Z * list byte)
    (Creat : string -> FS -> bool) (mkdtemp : FS -> option string)
    (boot_image_path unpack_dir : string) (fs : FS) (dump : list byte) :
  mkdtemp fs = Some unpack_dir ->
  Creat (unpack_dir +:+ "/boot_params") fs = true ->
  Command_stdout [HostBinaryPath "avbtool"; "info_image"; "--image";
                  boot_image_path] fs = (0, dump) ->
  let value := ExtractValue dump OS_VERSION_KEY in
  let unquoted := filter (fun b => b <> QUOTE) value in
  let r := ReadAndroidVersionFromBootImage HostBinaryPath Command_stdout
             Creat mkdtemp boot_image_path fs in
  (value = bytes "None" -> r = Ok (bytes "0.0.0")) /\
  (value <> bytes "None" -> version_shape unquoted -> r = Ok unquoted) /\
  (value <> bytes "None" -> ~ version_shape unquoted ->
   exists message, r = CF_ERR message).
Proof.
  intros Hdir Hcreat Hrun value unquoted r.
  assert (Hr : r = AndroidVersionFromBootParams dump).
  { subst r. unfold ReadAndroidVersionFromBootImage, GetAvbMetadatFromBootImage.
    rewrite Hdir, Hcreat, Hrun. cbn [negb Z.eqb].
    unfold ReadFile. by rewrite lookup_insert_eq. }
  rewrite Hr. apply AndroidVersionFromBootParams_cases.
Qed.

Lemma ReadAndroidVersionFromBootImage_version_witness :
  ReadAndroidVersionFromBootImage stub_HostBinaryPath
    (stub_avbtool (bytes "'14.0.0'")) (fun _ _ => true)
    (fun _ => Some "/tmp/a1B2c3") "boot.img" ∅
  = Ok (bytes "14.0.0").
Proof.
  apply (proj1 (proj2
    (ReadAndroidVersionFromBootImage_version stub_HostBinaryPath
       (stub_avbtool (bytes "'14.0.0'")) (fun _ _ => true)
       (fun _ => Some "/tmp/a1B2c3") "boot.img" "/tmp/a1B2c3" ∅ _
       eq_refl eq_refl eq_refl))).
  - intros H. vm_compute in H. discriminate H.
  - apply VERSION_RE_language. reflexivity.
Defined.

(** The three examples of the specification, run through the whole reader. *)
Example ReadAndroidVersionFromBootImage_examples :
  let run version :=
    ReadAndroidVersionFromBootImage stub_HostBinaryPath
      (stub_avbtool (bytes version)) (fun _ _ => true)
      (fun _ => Some "/tmp/a1B2c3") "boot.img" ∅ in
  run "None" = Ok (bytes "0.0.0")
  /\ run "'14.0.0'" = Ok (bytes "14.0.0")
  /\ run "abc"
     = CF_ERR (bytes "Version string is not a valid version " ++
               [DQUOTE] ++ bytes "abc" ++ [DQUOTE])
  /\ run "0.1" = CF_ERR (bytes "Version string is not a valid version " ++
                         [DQUOTE] ++ bytes "0.1" ++ [DQUOTE]).
Proof. repeat split; reflexivity. Qed.

(** C8 as stated: the dumped value 1'4 has no quote around it and is not a
    dotted version, so the reader as specified fails; the code removes the
    quote in the middle and returns 14. *)
Lemma ReadAndroidVersionFromBootImage_inner_quote :
  let r :=
    ReadAndroidVersionFromBootImage stub_HostBinaryPath
      (stub_avbtool (bytes "1'4")) (fun _ _ => true)
      (fun _ => Some "/tmp/a1B2c3") "boot.img" ∅ in
  r = Ok (bytes "14")
  /\ strip_surrounding_quotes (bytes "1'4") = bytes "1'4"
  /\ ~ ReadVersion_as_stated (bytes "1'4") r.
Proof.
  intros r. split; [reflexivity|]. split; [reflexivity|].
  unfold ReadVersion_as_stated.
  rewrite decide_False by discriminate. cbv zeta.
  change (strip_surrounding_quotes (bytes "1'4")) with (bytes "1'4").
  intros [_ Herr]. destruct Herr as [message Hm].
  - intros Hshape%VERSION_RE_language. vm_compute in Hshape. discriminate.
  - vm_compute in Hm. discriminate Hm.
Qed.

(** * Further properties of the modelled code *)

(** ** Key/value extraction, read backwards *)

Lemma find_char_from_Some base s c e :
  find_char_from base s c = Some e ->
  exists v rest, s = v ++ c :: rest /\ (c ∉ v) /\ e = (base + length v)%nat.
Proof.
  revert base. induction s as [|x s IH]; intros base; [done|]. simpl.
  destruct (byte_eqb x c) eqn:E.
  - apply byte_eqb_eq in E as ->. intros [= <-].
    exists [], s. split_and!; [done | apply not_elem_of_nil | simpl; lia].
  - apply byte_eqb_neq in E. intros (v & rest & -> & Hnin & ->)%IH.
    exists (x :: v), rest. split_and!; [done | | simpl; lia].
    apply not_elem_of_cons. split; [congruence | done].
Qed.

Lemma find_from_Some base s key i :
  find_from base s key = Some i ->
  exists pre suf,
    s = pre ++ key ++ suf /\ i = (base + length pre)%nat /\
    forall pre' suf', s = pre' ++ key ++ suf' -> (length pre <= length pre')%nat.
Proof.
  revert base. induction s as [|a s IH]; intros base;
    rewrite find_from_unfold.
  - destruct (starts_with key []) eqn:E; [|done].
    apply starts_with_prefix in E as (rest & E'). intros [= <-].
    exists [], rest. split_and!; [done | simpl; lia | intros; simpl; lia].
  - destruct (starts_with key (a :: s)) eqn:E.
    + apply starts_with_prefix in E as (rest & E'). intros [= <-].
      exists [], rest. split_and!; [done | simpl; lia | intros; simpl; lia].
    + intros (pre & suf & -> & -> & Hmin)%IH.
      exists (a :: pre), suf. split_and!; [done | simpl; lia |].
      intros pre' suf' E'. destruct pre' as [|a' pre'].
      * simpl in E'. rewrite (proj2 (starts_with_prefix key _)) in E by eauto.
        discriminate E.
      * simpl in E'. injection E' as _ E'. specialize (Hmin _ _ E').
        simpl. lia.
Qed.

Lemma ExtractValue_inv (dictionary key value : list byte) :
  ExtractValue dictionary key = value ->
  value = [] \/
  exists pre rest,
    dictionary = pre ++ key ++ value ++ LF :: rest /\ (LF ∉ value) /\
    forall pre' suf', dictionary = pre' ++ key ++ suf' ->
                      (length pre <= length pre')%nat.
Proof.
  unfold ExtractValue, find.
  destruct (find_from 0 dictionary key) as [i|] eqn:F; [|by left].
  apply find_from_Some in F as (pre & suf & Hd & -> & Hmin).
  cbn [Nat.add].
  destruct (find_char dictionary LF (length pre + length key))
    as [e|] eqn:G; [|by left].
  unfold find_char in G. rewrite Hd, drop_past_key in G.
  apply find_char_from_Some in G as (v & rest & -> & Hnin & ->).
  unfold substr. rewrite Hd at 1. rewrite drop_past_key.
  replace (length pre + length key + length v - length pre - length key)%nat
    with (length v) by lia.
  rewrite take_app_length. intros <-. right. exists pre, rest. done.
Qed.

(** X1: whatever the dictionary and the key, the value [ExtractValue]
    returns holds no newline. *)
Theorem ExtractValue_no_newline (dictionary key : list byte) :
  LF ∉ ExtractValue dictionary key.
Proof.
  destruct (ExtractValue_inv dictionary key _ eq_refl)
    as [-> | (pre & rest & _ & Hnin & _)]; [apply not_elem_of_nil | done].
Qed.

(** X2: a non-empty result is never made up: the key occurs in the
    dictionary, and the result is the text between the end of its first
    occurrence and the next newline: a newline follows it, it holds none
    itself, and no occurrence of the key starts earlier. *)
Theorem ExtractValue_nonempty_sound (dictionary key value : list byte) :
  ExtractValue dictionary key = value -> value <> [] ->
  exists pre rest,
    dictionary = pre ++ key ++ value ++ LF :: rest /\
    (LF ∉ value) /\
    forall pre' suf', dictionary = pre' ++ key ++ suf' ->
                      (length pre <= length pre')%nat.
Proof.
  intros [-> | (pre & rest & Hd & Hnin & Hmin)]%ExtractValue_inv Hne; [done|].
  eauto.
Qed.

Lemma ExtractValue_nonempty_sound_witness :
  let dictionary :=
    bytes "os: 13" ++ [LF] ++ bytes "command line args: console=ttyS0" ++ [LF]
    ++ bytes "tail" ++ [LF] in
  exists pre rest,
    dictionary
    = pre ++ bytes "command line args: " ++ bytes "console=ttyS0" ++ LF :: rest
    /\ (LF ∉ bytes "console=ttyS0")
    /\ forall pre' suf',
         dictionary = pre' ++ bytes "command line args: " ++ suf' ->
         (length pre <= length pre')%nat.
Proof.
  intros dictionary.
  apply (ExtractValue_nonempty_sound dictionary
           (bytes "command line args: ") (bytes "console=ttyS0"));
    [reflexivity | discriminate].
Defined.

(** X3: with an empty key the first occurrence is position 0: the result
    is the first line of the dictionary, and empty when the dictionary has
    no newline at all. *)
Theorem ExtractValue_empty_key (dictionary : list byte) :
  (forall line rest, dictionary = line ++ LF :: rest -> LF ∉ line ->
                     ExtractValue dictionary [] = line)
  /\ (LF ∉ dictionary -> ExtractValue dictionary [] = []).
Proof.
  unfold ExtractValue, find. rewrite find_from_unfold. cbn [starts_with].
  cbn [Nat.add length]. unfold find_char, substr. rewrite !drop_0. split.
  - intros line rest -> Hnin. rewrite find_char_from_found by done.
    replace (0 + length line - 0 - 0)%nat with (length line) by lia.
    apply take_app_length.
  - intros Hnin. by rewrite find_char_from_absent.
Qed.

Lemma ExtractValue_empty_key_witness :
  ExtractValue (bytes "first" ++ [LF] ++ bytes "second" ++ [LF]) []
  = bytes "first".
Proof.
  apply (proj1 (ExtractValue_empty_key _) (bytes "first")
           (bytes "second" ++ [LF])); [reflexivity|].
  intros Hin. vm_compute in Hin.
  repeat (apply elem_of_cons in Hin as [Hin|Hin]; [discriminate Hin|]).
  by apply elem_of_nil in Hin.
Defined.

(** ** The gem5 image beyond its three fields *)

Lemma trim_padding_is_Some (s : list byte) :
  Exists (fun b => b <> NUL) s -> exists r, trim_padding s = Some r.
Proof.
  intros Hex. destruct (trim_padding s) as [r|] eqn:E; [eauto|].
  apply trim_padding_None in E. exfalso.
  apply Exists_exists in Hex as (b & Hin & Hb).
  rewrite E in Hin. by apply elem_of_replicate in Hin as [-> _].
Qed.

Lemma trim_padding_app_nuls (s : list byte) k :
  trim_padding (s ++ replicate k NUL) = trim_padding s.
Proof.
  destruct (trim_padding s) as [r|] eqn:E.
  - apply trim_padding_Some in E as (x & j & Hx & ->).
    apply trim_padding_Some. exists x, (j + k)%nat. split; [done|].
    by rewrite <- app_assoc, replicate_add.
  - apply trim_padding_None in E. apply trim_padding_None.
    remember (length s) as n eqn:Hn. rewrite length_app, length_replicate, <- Hn.
    by rewrite replicate_add, <- E.
Qed.

(** X4: [RepackGem5BootImage] never lets the [std::out_of_range] of
    [erase] escape: the preamble always holds a byte other than NUL, so
    for all four inputs an image is written, and it starts with the boot
    ramdisk. *)
Theorem RepackGem5BootImage_never_throws t boot vendor_rd vendor persistent :
  exists image,
    RepackGem5BootImage t boot vendor_rd vendor persistent = Some image /\
    boot `prefix_of` image.
Proof.
  destruct (trim_padding_accumulated vendor persistent) as [config E].
  unfold RepackGem5BootImage. rewrite E.
  unfold put_string, put_rdbuf, write, ofstream_trunc. cbn [good written].
  destruct boot as [|b boot]; cbn [good written].
  { eexists. split; [done | apply prefix_nil]. }
  destruct vendor_rd as [|v vendor_rd]; cbn [good written].
  { eexists. split; [done|]. rewrite app_nil_l. reflexivity. }
  eexists. split; [done|]. rewrite app_nil_l, <- !app_assoc. by eexists.
Qed.

(** X5: an empty ramdisk stream stops the output.  With an empty boot
    ramdisk the image is empty; with an empty vendor ramdisk the image is
    the boot ramdisk alone.  In both cases no bootconfig, length, checksum
    or magic is written. *)
Theorem RepackGem5BootImage_empty_ramdisk_no_trailer
    t boot vendor_rd vendor persistent :
  (boot = [] ->
   RepackGem5BootImage t boot vendor_rd vendor persistent = Some [])
  /\ (vendor_rd = [] ->
      RepackGem5BootImage t boot vendor_rd vendor persistent = Some boot).
Proof.
  destruct (trim_padding_accumulated vendor persistent) as [config E].
  unfold RepackGem5BootImage. rewrite E. split.
  - by intros ->.
  - intros ->. by destruct boot.
Qed.

Lemma RepackGem5BootImage_empty_ramdisk_no_trailer_witness :
  RepackGem5BootImage x86_64_linux (bytes "boot") [] (bytes "a=1") []
  = Some (bytes "boot").
Proof.
  exact (proj2 (RepackGem5BootImage_empty_ramdisk_no_trailer
                  x86_64_linux (bytes "boot") [] (bytes "a=1") []) eq_refl).
Defined.

(** X6: the image does not depend on how many NUL bytes pad the end of the
    persistent bootconfig. *)
Theorem RepackGem5BootImage_padding_irrelevant
    t boot vendor_rd vendor persistent k :
  RepackGem5BootImage t boot vendor_rd vendor (persistent ++ replicate k NUL)
  = RepackGem5BootImage t boot vendor_rd vendor persistent.
Proof.
  unfold RepackGem5BootImage. rewrite !accumulated_bootconfig_app.
  replace (BOOTCONFIG_PREAMBLE ++ vendor ++ persistent ++ replicate k NUL)
    with ((BOOTCONFIG_PREAMBLE ++ vendor ++ persistent) ++ replicate k NUL)
    by (by rewrite <- !app_assoc).
  by rewrite trim_padding_app_nuls.
Qed.

(** X7: what is left of the preamble.  When the two blobs together hold a
    byte other than NUL, the emitted config starts with the whole preamble;
    when they hold none (both empty, or padding only), the emitted config is
    the preamble without its final newline. *)
Theorem emitted_config_preamble vendor persistent config :
  trim_padding (accumulated_bootconfig vendor persistent) = Some config ->
  (Exists (fun b => b <> NUL) (vendor ++ persistent) ->
   BOOTCONFIG_PREAMBLE `prefix_of` config)
  /\ (Forall (fun b => b = NUL) (vendor ++ persistent) ->
      config ++ [LF] = BOOTCONFIG_PREAMBLE).
Proof.
  rewrite accumulated_bootconfig_app. intros Hc. split.
  - intros (r & (x & j & Hx & Hs)%trim_padding_Some)%trim_padding_is_Some.
    rewrite Hs in Hc.
    assert (Hc' : trim_padding (BOOTCONFIG_PREAMBLE ++ r ++ x :: replicate j NUL)
                  = Some (BOOTCONFIG_PREAMBLE ++ r)).
    { apply trim_padding_Some. exists x, j. by rewrite <- app_assoc. }
    rewrite Hc' in Hc. injection Hc as <-. by exists r.
  - intros Hall.
    assert (Hs : vendor ++ persistent
                 = replicate (length (vendor ++ persistent)) NUL).
    { symmetry. apply replicate_as_Forall. split; [done|].
      eapply Forall_impl; [exact Hall|]. by intros ? ->. }
    rewrite Hs in Hc.
    set (P0 := take 95 BOOTCONFIG_PREAMBLE).
    assert (Hc' : trim_padding (BOOTCONFIG_PREAMBLE ++
                    replicate (length (vendor ++ persistent)) NUL) = Some P0).
    { apply trim_padding_Some. exists LF, (length (vendor ++ persistent)).
      split; [discriminate|].
      change BOOTCONFIG_PREAMBLE with (P0 ++ [LF]). by rewrite <- app_assoc. }
    rewrite Hc' in Hc. by injection Hc as <-.
Qed.

Lemma emitted_config_preamble_witness :
  BOOTCONFIG_PREAMBLE
    `prefix_of` (BOOTCONFIG_PREAMBLE ++ bytes "kernel.console=ttyS0").
Proof.
  apply (proj1 (emitted_config_preamble
                  (bytes "kernel.console=ttyS0" ++ [LF]) [x00; x00]
                  (BOOTCONFIG_PREAMBLE ++ bytes "kernel.console=ttyS0")
                  eq_refl)).
  apply Exists_cons_hd. discriminate.
Defined.

Lemma preamble_is_7bit :
  Forall (fun b => byte_val b < 128) BOOTCONFIG_PREAMBLE.
Proof. repeat (constructor; [reflexivity|]). constructor. Qed.

(** X8: when the vendor and the persistent bootconfig are 7-bit text, the
    checksum field is, on every target, the little-endian encoding of the
    sum of the bytes of the emitted config modulo [2^32], and reads back as
    that number. *)
Theorem RepackGem5BootImage_checksum_of_text
    t boot vendor_rd vendor persistent :
  boot <> [] -> vendor_rd <> [] ->
  Forall (fun b => byte_val b < 128) vendor ->
  Forall (fun b => byte_val b < 128) persistent ->
  exists image config,
    RepackGem5BootImage t boot vendor_rd vendor persistent = Some image /\
    trim_padding (accumulated_bootconfig vendor persistent) = Some config /\
    checksum_field image = le32 (byte_sum config) /\
    le_decode (checksum_field image) = byte_sum config mod 2 ^ 32.
Proof.
  intros Hb Hv Hvb Hpb.
  destruct (RepackGem5BootImage_checksum_field t _ _ vendor persistent Hb Hv)
    as (image & config & Himg & Htrim & _ & Hsum).
  exists image, config. split; [done|]. split; [done|].
  assert (H7 : Forall (fun b => byte_val b < 128) config).
  { pose proof Htrim as (x & j & _ & Hs)%trim_padding_Some.
    rewrite accumulated_bootconfig_app in Hs.
    assert (Hall : Forall (fun b => byte_val b < 128)
                     (BOOTCONFIG_PREAMBLE ++ vendor ++ persistent)).
    { apply Forall_app. split; [apply preamble_is_7bit|].
      by apply Forall_app. }
    rewrite Hs in Hall. by apply Forall_app in Hall as [? _]. }
  rewrite (Hsum (or_intror H7)). split; [done|].
  unfold le32. rewrite le_decode_object_repr.
  change (256 ^ Z.of_nat 4) with (2 ^ 32). apply Z.mod_mod. lia.
Qed.

Lemma RepackGem5BootImage_checksum_of_text_witness :
  exists image config,
    RepackGem5BootImage x86_64_linux [x01] [x02] (bytes "a=1") [x00] = Some image /\
    trim_padding (accumulated_bootconfig (bytes "a=1") [x00]) = Some config /\
    checksum_field image = le32 (byte_sum config) /\
    le_decode (checksum_field image) = byte_sum config mod 2 ^ 32.
Proof.
  apply (RepackGem5BootImage_checksum_of_text x86_64_linux [x01] [x02]);
    [discriminate | discriminate | |];
    repeat (constructor; [reflexivity|]); constructor.
Defined.

(** ** The commit guard as its callers see it *)

(** X9: whichever branch is taken, a call that reports success leaves the
    final path holding the bytes the tmp file held. *)
Theorem DeleteTmpFileIfNotChanged_success_content
    os tmp cur (fs fs' : FS) content :
  tmp <> cur -> fs !! tmp = Some content ->
  DeleteTmpFileIfNotChanged os tmp cur fs = (true, fs') ->
  fs' !! cur = Some content.
Proof.
  intros Hne Htmp. unfold DeleteTmpFileIfNotChanged.
  rewrite (commit_guard_test _ _ _ _ Htmp).
  destruct (bool_decide (fs !! cur = Some content)) eqn:E; cbn [negb].
  - apply bool_decide_eq_true in E. unfold RemoveFile. rewrite Htmp.
    destruct (unlink_refused os tmp); intros [= <-]; [done|].
    by rewrite lookup_delete_ne.
  - unfold RenameFile. rewrite Htmp.
    destruct (rename_refused os tmp cur); [done|].
    rewrite bool_decide_false by done. intros [= <-].
    by rewrite lookup_insert_eq.
Qed.

Lemma DeleteTmpFileIfNotChanged_success_content_witness :
  (DeleteTmpFileIfNotChanged permissive "boot.img.tmp" "boot.img"
     ({[ "boot.img.tmp" := bytes "fresh" ]} : FS)).2 !! "boot.img"
  = Some (bytes "fresh").
Proof.
  apply (DeleteTmpFileIfNotChanged_success_content permissive
           "boot.img.tmp" "boot.img" {[ "boot.img.tmp" := bytes "fresh" ]});
    [discriminate | reflexivity | reflexivity].
Defined.

(** X10: a call that reports failure has changed no file. *)
Theorem DeleteTmpFileIfNotChanged_failure_keeps_files
    os tmp cur (fs fs' : FS) :
  DeleteTmpFileIfNotChanged os tmp cur fs = (false, fs') -> fs' = fs.
Proof.
  unfold DeleteTmpFileIfNotChanged.
  destruct (negb (FileExists cur fs) || _).
  - unfold RenameFile. destruct (rename_refused os tmp cur).
    + by intros [= <-].
    + destruct (fs !! tmp); [|by intros [= <-]].
      by destruct (bool_decide (tmp = cur)).
  - by destruct (RemoveFile os tmp fs).
Qed.

Lemma DeleteTmpFileIfNotChanged_failure_keeps_files_witness :
  let os := {| rename_refused := fun _ _ => true;
               unlink_refused := fun _ => false |} in
  let fs : FS := {[ "boot.img" := bytes "old"; "boot.img.tmp" := bytes "new" ]} in
  DeleteTmpFileIfNotChanged os "boot.img.tmp" "boot.img" fs = (false, fs).
Proof.
  intros os fs.
  destruct (DeleteTmpFileIfNotChanged os "boot.img.tmp" "boot.img" fs)
    as [[] fs'] eqn:E; [discriminate E|].
  f_equal. exact (DeleteTmpFileIfNotChanged_failure_keeps_files _ _ _ _ _ E).
Defined.

(** X11: no call touches a file other than the tmp file and the final
    file. *)
Theorem DeleteTmpFileIfNotChanged_other_files os tmp cur (fs : FS) p :
  p <> tmp -> p <> cur ->
  (DeleteTmpFileIfNotChanged os tmp cur fs).2 !! p = fs !! p.
Proof.
  intros Ht Hc. unfold DeleteTmpFileIfNotChanged.
  destruct (negb (FileExists cur fs) || _).
  - unfold RenameFile. destruct (rename_refused os tmp cur); [done|].
    destruct (fs !! tmp); [|done].
    destruct (bool_decide (tmp = cur)); [done|]. cbn [negb snd].
    rewrite lookup_insert_ne by done. by rewrite lookup_delete_ne.
  - unfold RemoveFile. destruct (unlink_refused os tmp); [done|].
    destruct (fs !! tmp); [|done]. cbn [snd]. by rewrite lookup_delete_ne.
Qed.

Lemma DeleteTmpFileIfNotChanged_other_files_witness :
  let fs : FS := {[ "boot.img.tmp" := bytes "new"; "userdata.img" := bytes "data" ]} in
  (DeleteTmpFileIfNotChanged permissive "boot.img.tmp" "boot.img" fs).2
  !! "userdata.img" = Some (bytes "data").
Proof.
  intros fs.
  rewrite (DeleteTmpFileIfNotChanged_other_files permissive
             "boot.img.tmp" "boot.img" fs "userdata.img");
    [reflexivity | discriminate | discriminate].
Defined.

(** X12: committing the same bytes again changes nothing.  After a first
    commit under a kernel that refuses neither the rename nor the unlink,
    writing the same bytes to the tmp path and committing once more reports
    success and gives back exactly the files the first commit left. *)
Theorem DeleteTmpFileIfNotChanged_recommit os tmp cur (fs : FS) content :
  tmp <> cur -> fs !! tmp = Some content ->
  rename_refused os tmp cur = false -> unlink_refused os tmp = false ->
  exists fs1,
    DeleteTmpFileIfNotChanged os tmp cur fs = (true, fs1) /\
    fs1 !! cur = Some content /\ fs1 !! tmp = None /\
    DeleteTmpFileIfNotChanged os tmp cur (<[tmp := content]> fs1) = (true, fs1).
Proof.
  intros Hne Htmp Hr Hu.
  assert (Hagain : forall fs1 : FS,
             fs1 !! cur = Some content -> fs1 !! tmp = None ->
             DeleteTmpFileIfNotChanged os tmp cur (<[tmp := content]> fs1)
             = (true, fs1)).
  { intros fs1 Hc Ht. unfold DeleteTmpFileIfNotChanged.
    rewrite (commit_guard_test _ _ _ content) by apply lookup_insert_eq.
    rewrite lookup_insert_ne by done.
    rewrite bool_decide_true by done. cbn [negb].
    unfold RemoveFile. rewrite Hu, lookup_insert_eq.
    by rewrite delete_insert_eq, delete_id. }
  unfold DeleteTmpFileIfNotChanged at 1.
  rewrite (commit_guard_test _ _ _ _ Htmp).
  destruct (bool_decide (fs !! cur = Some content)) eqn:E; cbn [negb].
  - apply bool_decide_eq_true in E. unfold RemoveFile. rewrite Hu, Htmp.
    assert (Hc : delete tmp fs !! cur = Some content)
      by (by rewrite lookup_delete_ne).
    assert (Ht : delete tmp fs !! tmp = None) by apply lookup_delete_eq.
    exists (delete tmp fs). split_and!; [done | done | done | by apply Hagain].
  - unfold RenameFile. rewrite Hr, Htmp.
    rewrite bool_decide_false by done. cbn [negb].
    assert (Hc : <[cur := content]> (delete tmp fs) !! cur = Some content)
      by apply lookup_insert_eq.
    assert (Ht : <[cur := content]> (delete tmp fs) !! tmp = None).
    { rewrite lookup_insert_ne by done. apply lookup_delete_eq. }
    eexists. split_and!; [done | done | done | by apply Hagain].
Qed.

Lemma DeleteTmpFileIfNotChanged_recommit_witness :
  let fs : FS := {[ "boot.img" := bytes "old"; "boot.img.tmp" := bytes "new" ]} in
  exists fs1,
    DeleteTmpFileIfNotChanged permissive "boot.img.tmp" "boot.img" fs
    = (true, fs1) /\
    fs1 !! "boot.img" = Some (bytes "new") /\ fs1 !! "boot.img.tmp" = None /\
    DeleteTmpFileIfNotChanged permissive "boot.img.tmp" "boot.img"
      (<["boot.img.tmp" := bytes "new"]> fs1) = (true, fs1).
Proof.
  intros fs.
  apply (DeleteTmpFileIfNotChanged_recommit permissive
           "boot.img.tmp" "boot.img" fs (bytes "new"));
    [discriminate | reflexivity | reflexivity | reflexivity].
Defined.

(** ** Concatenating the ramdisks: the empty first stream *)

(** X13: when the stripped ramdisk file is empty or missing, the new
    ramdisk is left empty, whatever the kernel-modules ramdisk holds: the
    empty first stream sets [failbit] and the second is never copied. *)
Theorem concatenate_ramdisks_empty_first stripped modules new (fs : FS) :
  ReadFile stripped fs = [] ->
  concatenate_ramdisks stripped modules new fs !! new = Some [].
Proof.
  intros Hs. unfold concatenate_ramdisks.
  assert (Ha : ReadFile stripped (<[new := []]> fs) = []).
  { unfold ReadFile in *. destruct (decide (new = stripped)) as [->|Hne].
    - by rewrite lookup_insert_eq.
    - by rewrite lookup_insert_ne. }
  rewrite Ha, put_rdbuf_after_empty. apply lookup_insert_eq.
Qed.

Lemma concatenate_ramdisks_empty_first_witness :
  concatenate_ramdisks "out/stripped_ramdisk" "modules.img"
    "out/vendor_ramdisk_repacked"
    ({[ "modules.img" := bytes "MODULES";
        "out/vendor_ramdisk_repacked" := bytes "stale" ]} : FS)
  !! "out/vendor_ramdisk_repacked" = Some [].
Proof.
  apply (concatenate_ramdisks_empty_first "out/stripped_ramdisk" "modules.img"
           "out/vendor_ramdisk_repacked"). reflexivity.
Defined.

(** ** What the version reader can return *)

Lemma erase_remove_absent s c : c ∉ erase_remove s c.
Proof.
  rewrite erase_remove_filter. intros [H _]%list_elem_of_filter. by apply H.
Qed.

(** X14: whatever the tools do, a version the reader returns is either the
    default 0.0.0 or a dotted version without any single-quote character. *)
Theorem ReadAndroidVersionFromBootImage_returns_version
    (HostBinaryPath : string -> string)
    (Command_stdout : list string -> FS -> Z * list byte)
    (Creat : string -> FS -> bool) (mkdtemp : FS -> option string)
    (boot_image_path : string) (fs : FS) (version : list byte) :
  ReadAndroidVersionFromBootImage HostBinaryPath Command_stdout Creat mkdtemp
    boot_image_path fs = Ok version ->
  version = bytes "0.0.0" \/ (version_shape version /\ QUOTE ∉ version).
Proof.
  unfold ReadAndroidVersionFromBootImage.
  destruct (mkdtemp fs) as [unpack_dir|]; [|done].
  destruct (GetAvbMetadatFromBootImage _ _ _ _ _ _) as [[] fs']; [|done].
  cbn [negb]. unfold AndroidVersionFromBootParams.
  destruct (bool_decide _); [intros [= <-]; by left|].
  destruct (regex_match _ VERSION_RE) eqn:E; [|done].
  intros [= <-]. right. split.
  - by apply VERSION_RE_language.
  - apply erase_remove_absent.
Qed.

Lemma ReadAndroidVersionFromBootImage_returns_version_witness :
  version_shape (bytes "13.0.1") /\ QUOTE ∉ bytes "13.0.1".
Proof.
  assert (Hrun : ReadAndroidVersionFromBootImage
                   stub_HostBinaryPath (stub_avbtool (bytes "'13.0.1'"))
                   (fun _ _ => true) (fun _ => Some "/tmp/a1B2c3") "boot.img" ∅
                 = Ok (bytes "13.0.1")) by reflexivity.
  destruct (ReadAndroidVersionFromBootImage_returns_version _ _ _ _ _ _ _ Hrun)
    as [Hd | H]; [discriminate Hd | exact H].
Defined.

(** X15: a dump in which the os_version property does not occur is not
    given the default: the reader fails with a validation error. *)
Theorem ReadAndroidVersionFromBootImage_missing_property
    (HostBinaryPath : string -> string)
    (Command_stdout : list string -> FS -> Z * list byte)
    (Creat : string -> FS -> bool) (mkdtemp : FS -> option string)
    (boot_image_path unpack_dir : string) (fs : FS) (dump : list byte) :
  mkdtemp fs = Some unpack_dir ->
  Creat (unpack_dir +:+ "/boot_params") fs = true ->
  Command_stdout [HostBinaryPath "avbtool"; "info_image"; "--image";
                  boot_image_path] fs = (0, dump) ->
  (forall pre suf, dump <> pre ++ OS_VERSION_KEY ++ suf) ->
  ReadAndroidVersionFromBootImage HostBinaryPath Command_stdout Creat mkdtemp
    boot_image_path fs
  = CF_ERR (bytes "Version string is not a valid version " ++
            [DQUOTE] ++ [DQUOTE]).
Proof.
  intros Hdir Hcreat Hrun Habs.
  unfold ReadAndroidVersionFromBootImage, GetAvbMetadatFromBootImage.
  rewrite Hdir, Hcreat, Hrun. cbn [negb Z.eqb].
  unfold ReadFile. rewrite lookup_insert_eq. cbn [default].
  unfold AndroidVersionFromBootParams, ExtractValue, find.
  by rewrite find_from_absent.
Qed.

Lemma ReadAndroidVersionFromBootImage_missing_property_witness :
  ReadAndroidVersionFromBootImage stub_HostBinaryPath
    (stub_print (bytes "Image size: 67108864 bytes")) (fun _ _ => true)
    (fun _ => Some "/tmp/a1B2c3") "boot.img" ∅
  = CF_ERR (bytes "Version string is not a valid version " ++
            [DQUOTE] ++ [DQUOTE]).
Proof.
  apply (ReadAndroidVersionFromBootImage_missing_property
           stub_HostBinaryPath _ _ _ "boot.img" "/tmp/a1B2c3" ∅
           (bytes "Image size: 67108864 bytes") eq_refl eq_refl eq_refl).
  intros pre suf H. apply (f_equal length) in H.
  rewrite !length_app in H. cbn in H. lia.
Defined.

(** ** Unpacking the vendor boot image *)

(** X16: the params file is created before the unpack tool has run, and it
    is what marks the directory as unpacked.  When the file is not there
    yet, can be created, and unpack_bootimg then exits with a non-zero
    status, the call reports failure; the next call on the files it left
    reports success and runs nothing. *)
Theorem UnpackVendorBootImageIfNotUnpacked_failure_sticks
    (HostBinaryPath : string -> string)
    (Command : list string -> FS -> Z * list byte * FS)
    (Creat : string -> FS -> bool)
    (vendor_boot_image_path unpack_dir : string) (fs fs_tool : FS)
    (status : Z) (out : list byte) :
  let params := unpack_dir +:+ "/vendor_boot_params" in
  FileExists params fs = false ->
  Creat params fs = true ->
  Command [HostBinaryPath "unpack_bootimg"; "--boot_img";
           vendor_boot_image_path; "--out"; unpack_dir]
          (<[params := []]> fs) = (status, out, fs_tool) ->
  status <> 0 ->
  let fs1 := <[params := out]> fs_tool in
  UnpackVendorBootImageIfNotUnpacked HostBinaryPath Command Creat
    vendor_boot_image_path unpack_dir fs = (false, fs1)
  /\ UnpackVendorBootImageIfNotUnpacked HostBinaryPath Command Creat
       vendor_boot_image_path unpack_dir fs1 = (true, fs1).
Proof.
  intros params Hnew Hcreat Hrun Hstatus fs1. split.
  - unfold UnpackVendorBootImageIfNotUnpacked, run_redirected.
    fold params. rewrite Hnew, Hcreat, Hrun. cbn [negb].
    by destruct (Z.eqb_spec status 0).
  - unfold UnpackVendorBootImageIfNotUnpacked. fold params.
    assert (Hex : FileExists params fs1 = true).
    { unfold FileExists, fs1. rewrite lookup_insert_eq.
      by apply bool_decide_eq_true. }
    by rewrite Hex.
Qed.

Lemma UnpackVendorBootImageIfNotUnpacked_failure_sticks_witness :
  let tool : list string -> FS -> Z * list byte * FS :=
    fun _ fs => (1, bytes "unpack_bootimg: bad magic", fs) in
  let fs1 : FS :=
    <["out/vendor_boot_params" := bytes "unpack_bootimg: bad magic"]>
      (<["out/vendor_boot_params" := []]> ∅) in
  UnpackVendorBootImageIfNotUnpacked stub_HostBinaryPath tool
    (fun _ _ => true) "vendor_boot.img" "out" ∅ = (false, fs1)
  /\ UnpackVendorBootImageIfNotUnpacked stub_HostBinaryPath tool
       (fun _ _ => true) "vendor_boot.img" "out" fs1 = (true, fs1).
Proof.
  intros tool fs1.
  apply (UnpackVendorBootImageIfNotUnpacked_failure_sticks
           stub_HostBinaryPath tool (fun _ _ => true)
           "vendor_boot.img" "out" ∅ _ 1 _);
    [reflexivity | reflexivity | reflexivity | discriminate].
Defined.

(** X17: unpacking is done once.  When no tool removes the params file, a
    call that reports success leaves files on which the next call reports
    success again and changes nothing. *)
Theorem UnpackVendorBootImageIfNotUnpacked_once
    (HostBinaryPath : string -> string)
    (Command : list string -> FS -> Z * list byte * FS)
    (Creat : string -> FS -> bool)
    (vendor_boot_image_path unpack_dir : string) (fs fs' : FS) :
  let params := unpack_dir +:+ "/vendor_boot_params" in
  (forall args (fs0 : FS), is_Some (fs0 !! params) ->
                           is_Some ((Command args fs0).2 !! params)) ->
  UnpackVendorBootImageIfNotUnpacked HostBinaryPath Command Creat
    vendor_boot_image_path unpack_dir fs = (true, fs') ->
  UnpackVendorBootImageIfNotUnpacked HostBinaryPath Command Creat
    vendor_boot_image_path unpack_dir fs' = (true, fs').
Proof.
  intros params Hkeep Hrun.
  assert (Hex : FileExists params fs' = true); cycle 1.
  { unfold UnpackVendorBootImageIfNotUnpacked. fold params. by rewrite Hex. }
  apply bool_decide_eq_true.
  revert Hrun. unfold UnpackVendorBootImageIfNotUnpacked, run_redirected.
  fold params.
  destruct (FileExists params fs) eqn:Hold.
  { intros [= <-]. by apply bool_decide_eq_true in Hold. }
  destruct (Creat params fs); cbn [negb]; [|done].
  destruct (Command _ (<[params := []]> fs)) as [[status1 out1] fs1].
  destruct (status1 =? 0); cbn [negb]; [|done].
  destruct (Creat _ _); cbn [negb]; [|done].
  match goal with
  | |- context [Command ?a ?f] =>
      pose proof (Hkeep a f) as Hk; destruct (Command a f) as [[status2 out2] fs2]
  end.
  destruct (status2 =? 0); cbn [negb]; [|done].
  intros [= <-]. apply lookup_insert_is_Some'. right. apply Hk.
  apply lookup_insert_is_Some'. right. rewrite lookup_insert_eq. by eexists.
Qed.

Lemma UnpackVendorBootImageIfNotUnpacked_once_witness :
  let tool : list string -> FS -> Z * list byte * FS :=
    fun _ fs => (0, bytes "vendor command line args: console=ttyS0", fs) in
  exists fs' : FS,
    UnpackVendorBootImageIfNotUnpacked stub_HostBinaryPath tool
      (fun _ _ => true) "vendor_boot.img" "out" ∅ = (true, fs')
    /\ UnpackVendorBootImageIfNotUnpacked stub_HostBinaryPath tool
         (fun _ _ => true) "vendor_boot.img" "out" fs' = (true, fs').
Proof.
  intros tool. eexists. split; [reflexivity|].
  apply (UnpackVendorBootImageIfNotUnpacked_once stub_HostBinaryPath tool
           (fun _ _ => true) "vendor_boot.img" "out" ∅);
    [by intros args fs0 H | reflexivity].
Defined.

(** ** Repacking the boot image *)

Lemma string_length_append (s1 s2 : string) :
  String.length (s1 +:+ s2) = (String.length s1 + String.length s2)%nat.
Proof. induction s1 as [|c s1 IH]; [done|]. simpl. by rewrite IH. Qed.

(** The tmp path the callers build is never the final path. *)
Lemma tmp_path_distinct (path : string) : path +:+ TMP_EXTENSION <> path.
Proof.
  intros H. apply (f_equal String.length) in H.
  rewrite string_length_append in H. simpl in H. lia.
Qed.

Lemma commit_guard_commits os tmp cur (fs : FS) content :
  tmp <> cur -> fs !! tmp = Some content ->
  fs !! cur = Some content \/ rename_refused os tmp cur = false ->
  exists fs',
    DeleteTmpFileIfNotChanged os tmp cur fs = (true, fs') /\
    fs' !! cur = Some content /\
    forall p, p <> tmp -> p <> cur -> fs' !! p = fs !! p.
Proof.
  intros Hne Htmp Hor. unfold DeleteTmpFileIfNotChanged.
  rewrite (commit_guard_test _ _ _ _ Htmp).
  destruct (bool_decide (fs !! cur = Some content)) eqn:E; cbn [negb].
  - apply bool_decide_eq_true in E. unfold RemoveFile. rewrite Htmp.
    destruct (unlink_refused os tmp).
    + by exists fs.
    + exists (delete tmp fs). split_and!; [done | |].
      * by rewrite lookup_delete_ne.
      * intros p Hp _. by rewrite lookup_delete_ne.
  - apply bool_decide_eq_false in E. destruct Hor as [?|Hr]; [done|].
    unfold RenameFile. rewrite Hr, Htmp.
    rewrite bool_decide_false by done. cbn [negb].
    eexists. split_and!; [done | apply lookup_insert_eq |].
    intros p Hp Hp'. rewrite lookup_insert_ne by done.
    by rewrite lookup_delete_ne.
Qed.

(** X18: the boot image is committed as the signer left it.  When the
    unpack, mkbootimg and the hash-footer step succeed and leave the bytes
    [image] at the tmp path, and the final path already holds [image] or
    the kernel does not refuse the rename, [RepackBootImage] succeeds, the
    final path holds [image], and no file other than the tmp and the final
    one differs from what the signer left. *)
Theorem RepackBootImage_commits_signed_image
    (HostBinaryPath : string -> string)
    (Command : list string -> FS -> Z * list byte * FS)
    (Creat : string -> FS -> bool)
    (AddHashFooter : string -> string -> Z -> FS -> bool * FS)
    (os : OS)
    (new_kernel_path boot_image_path new_boot_image_path build_dir : string)
    (fs unpacked packed signed : FS) (out image : list byte) :
  let tmp := new_boot_image_path +:+ ".tmp" in
  let cmdline :=
    ExtractValue (ReadFile (build_dir +:+ "/boot_params") unpacked)
                 (bytes "command line args: ") in
  UnpackBootImage HostBinaryPath Command Creat boot_image_path build_dir fs
  = (true, unpacked) ->
  Command [HostBinaryPath "mkbootimg"; "--kernel"; new_kernel_path;
           "--ramdisk"; build_dir +:+ "/ramdisk"; "--header_version"; "4";
           "--cmdline"; string_of_list_byte cmdline; "-o"; tmp] unpacked
  = (0, out, packed) ->
  AddHashFooter tmp "boot" (FileSize boot_image_path packed) packed
  = (true, signed) ->
  signed !! tmp = Some image ->
  signed !! new_boot_image_path = Some image
  \/ rename_refused os tmp new_boot_image_path = false ->
  exists fs',
    RepackBootImage HostBinaryPath Command Creat AddHashFooter os
      new_kernel_path boot_image_path new_boot_image_path build_dir fs
    = (Ok tt, fs') /\
    fs' !! new_boot_image_path = Some image /\
    forall p, p <> tmp -> p <> new_boot_image_path -> fs' !! p = signed !! p.
Proof.
  intros tmp cmdline Hunpack Hpack Hsign Htmp Hor.
  destruct (commit_guard_commits os tmp new_boot_image_path signed image)
    as (fs' & Hcommit & Hfinal & Hother);
    [apply tmp_path_distinct | done | done |].
  exists fs'. split; [|done].
  unfold RepackBootImage. rewrite Hunpack. cbn [negb].
  fold cmdline. change (new_boot_image_path +:+ TMP_EXTENSION) with tmp.
  rewrite Hpack. cbn [negb Z.eqb]. rewrite Hsign. cbn [negb].
  by rewrite Hcommit.
Qed.

Lemma RepackBootImage_commits_signed_image_witness :
  let tool : list string -> FS -> Z * list byte * FS :=
    fun args fs =>
      match args with
      | [_; "--boot_img"; _; "--out"; _] =>
          (0, bytes "command line args: androidboot.foo=bar" ++ [LF], fs)
      | _ => (0, [], <["new_boot.img.tmp" := bytes "ANDROID!"]> fs)
      end in
  let sign : string -> string -> Z -> FS -> bool * FS :=
    fun path _ _ fs => (true, <[path := ReadFile path fs ++ bytes "AVBf"]> fs) in
  exists fs',
    RepackBootImage stub_HostBinaryPath tool (fun _ _ => true) sign permissive
      "kernel" "boot.img" "new_boot.img" "out" ∅ = (Ok tt, fs') /\
    fs' !! "new_boot.img" = Some (bytes "ANDROID!AVBf").
Proof.
  intros tool sign.
  pose proof (RepackBootImage_commits_signed_image
                stub_HostBinaryPath tool (fun _ _ => true) sign permissive
                "kernel" "boot.img" "new_boot.img" "out" ∅) as H.
  edestruct H as (fs' & Hrun & Hfinal & _);
    [reflexivity | reflexivity | reflexivity | reflexivity
    | right; reflexivity |].
  exists fs'. split; [exact Hrun | exact Hfinal].
Defined.

(** ** The vendor command line *)

Lemma replace_scan_elem from to k s x :
  x ∈ replace_scan from to k s -> x ∈ s \/ x ∈ to.
Proof.
  revert k. induction s as [|c s IH]; intros k.
  - by intros ?%elem_of_nil.
  - cbn [replace_scan]. destruct k as [|k].
    + destruct (starts_with from (c :: s)).
      * intros [H|H]%elem_of_app; [by right|].
        apply IH in H as [H|H]; [left; by apply list_elem_of_further | by right].
      * intros [->|H]%elem_of_cons; [left; apply list_elem_of_here|].
        apply IH in H as [H|H]; [left; by apply list_elem_of_further | by right].
    + intros H. apply IH in H as [H|H];
        [left; by apply list_elem_of_further | by right].
Qed.

Lemma replace_scan_single c to s :
  c ∉ to -> c ∉ replace_scan [c] to 0 s.
Proof.
  intros Hto. induction s as [|x s IH]; [apply not_elem_of_nil|].
  cbn [replace_scan starts_with length Nat.sub].
  destruct (byte_eqb c x) eqn:E; cbn [andb].
  - destruct s; intros [H|H]%elem_of_app; done.
  - apply byte_eqb_neq in E. destruct s;
      (apply not_elem_of_cons; split; [done | exact IH]).
Qed.

(** X20: in both modes the vendor command line handed to mkbootimg holds
    no newline: the extracted value has none, the newlines of the
    bootconfig are turned into spaces, and the renaming adds none. *)
Theorem vendor_kernel_cmdline_no_newline
    (vendor_boot_params bootconfig : list byte) (bootconfig_supported : bool) :
  LF ∉ vendor_kernel_cmdline vendor_boot_params bootconfig
         bootconfig_supported.
Proof.
  unfold vendor_kernel_cmdline.
  set (value := ExtractValue vendor_boot_params _).
  assert (Hvalue : LF ∉ value).
  { destruct (ExtractValue_inv vendor_boot_params _ value eq_refl)
      as [-> | (pre & rest & _ & Hnin & _)]; [apply not_elem_of_nil | done]. }
  destruct bootconfig_supported; cbn [negb].
  - by rewrite app_nil_r.
  - unfold StringReplace. cbn [bytes list_byte_of_string].
    intros [H|H]%replace_scan_elem.
    + apply elem_of_app in H as [H|H]; [done|].
      apply elem_of_cons in H as [H|H]; [discriminate H|].
      revert H. apply replace_scan_single.
      intros [H|H]%elem_of_cons; [discriminate H | by apply elem_of_nil in H].
    + apply elem_of_cons in H as [H|H]; [discriminate H | by apply elem_of_nil in H].
Qed.

Lemma replace_scan_token from' to t rest :
  SPACE ∉ t ->
  replace_scan (SPACE :: from') to 0 (t ++ rest)
  = t ++ replace_scan (SPACE :: from') to 0 rest.
Proof.
  intros Ht. induction t as [|c t IH]; [done|].
  apply not_elem_of_cons in Ht as [Hc Ht].
  cbn [app replace_scan starts_with].
  rewrite (proj2 (byte_eqb_neq SPACE c)) by done. cbn [andb].
  by rewrite IH.
Qed.

Lemma replace_scan_skip from to (a rest : list byte) :
  replace_scan from to (length a) (a ++ rest) = replace_scan from to 0 rest.
Proof.
  induction a as [|c a IH]; [done|].
  cbn [app length replace_scan]. exact IH.
Qed.

Lemma starts_with_app_inv (p t rest : list byte) :
  starts_with p (t ++ rest) = true ->
  starts_with p t = true \/ exists c r, rest = c :: r /\ c ∈ p.
Proof.
  revert t. induction p as [|a p IH]; intros t; [by left|].
  destruct t as [|b t].
  - destruct rest as [|c r]; [done|]. cbn [app starts_with].
    intros [->%byte_eqb_eq _]%andb_true_iff. right.
    exists c, r. split; [done | apply list_elem_of_here].
  - cbn [app starts_with]. intros [Hab H]%andb_true_iff.
    apply IH in H as [H | (c & r & -> & Hc)].
    + left. by rewrite Hab, H.
    + right. exists c, r. split; [done | by apply list_elem_of_further].
Qed.

Lemma rename_after_space (t rest : list byte) :
  SPACE ∉ t -> rest = [] \/ (exists r, rest = SPACE :: r) ->
  replace_scan (bytes " kernel.") (bytes " ") 0 (SPACE :: t ++ rest)
  = SPACE :: strip_kernel_prefix t
    ++ replace_scan (bytes " kernel.") (bytes " ") 0 rest.
Proof.
  intros Ht Hrest. unfold strip_kernel_prefix.
  change (bytes " kernel.") with (SPACE :: bytes "kernel.").
  cbn [replace_scan]. cbn [starts_with]. rewrite byte_eqb_refl. cbn [andb].
  destruct (starts_with (bytes "kernel.") t) eqn:E.
  - apply starts_with_prefix in E as (t' & ->).
    rewrite (proj2 (starts_with_prefix _ _))
      by (exists (t' ++ rest); by rewrite <- app_assoc).
    rewrite <- app_assoc.
    change (length (SPACE :: bytes "kernel.") - 1)%nat
      with (length (bytes "kernel.")).
    rewrite replace_scan_skip.
    change (drop 7 (bytes "kernel." ++ t')) with t'.
    rewrite replace_scan_token; [done|].
    intros Hin. apply Ht. apply elem_of_app. by right.
  - destruct (starts_with (bytes "kernel.") (t ++ rest)) eqn:E'.
    + apply starts_with_app_inv in E' as [E' | (c & r & -> & Hc)];
        [congruence|].
      destruct Hrest as [? | (r' & [= -> _])]; [done|].
      exfalso. vm_compute in Hc.
      repeat (apply elem_of_cons in Hc as [Hc|Hc]; [discriminate Hc|]).
      by apply elem_of_nil in Hc.
    + by rewrite replace_scan_token.
Qed.

Lemma rename_tokens (tokens : list (list byte)) :
  Forall (fun t => SPACE ∉ t) tokens ->
  replace_scan (bytes " kernel.") (bytes " ") 0
    (concat (map (cons SPACE) tokens))
  = concat (map (fun t => SPACE :: strip_kernel_prefix t) tokens).
Proof.
  induction 1 as [|t tokens Ht Hall IH]; [done|].
  cbn [map concat]. change ((SPACE :: t) ++ ?r) with (SPACE :: t ++ r).
  rewrite rename_after_space, IH; [done | done |].
  destruct tokens as [|t' tokens]; [by left|]. right. by eexists.
Qed.

Lemma newline_to_space (lines : list (list byte)) :
  Forall (fun l => LF ∉ l) lines ->
  replace_scan [LF] [SPACE] 0 (concat (map (fun l => l ++ [LF]) lines))
  = concat (map (fun l => l ++ [SPACE]) lines).
Proof.
  induction 1 as [|l lines Hl _ IH]; [done|].
  cbn [map concat]. rewrite <- !app_assoc.
  assert (Hpass : forall rest,
             replace_scan [LF] [SPACE] 0 (l ++ rest)
             = l ++ replace_scan [LF] [SPACE] 0 rest).
  { intros rest. clear IH. induction l as [|c l IHl]; [done|].
    apply not_elem_of_cons in Hl as [Hc Hl].
    cbn [app replace_scan starts_with].
    rewrite (proj2 (byte_eqb_neq LF c)) by done. cbn [andb].
    by rewrite IHl. }
  rewrite Hpass. f_equal.
  cbn [app replace_scan starts_with length Nat.sub].
  rewrite byte_eqb_refl. cbn [andb app]. by rewrite IH.
Qed.

Lemma join_lines (lines : list (list byte)) :
  [SPACE] ++ concat (map (fun l => l ++ [SPACE]) lines)
  = concat (map (cons SPACE) lines) ++ [SPACE].
Proof.
  induction lines as [|l lines IH]; [done|].
  cbn [map concat]. rewrite <- !app_assoc.
  change ((SPACE :: l) ++ ?r) with ([SPACE] ++ l ++ r).
  by rewrite <- IH.
Qed.

(** X21: the renaming rule on a well-formed input.  When bootconfig is not
    supported, the extracted vendor command line is a first token followed
    by space-separated tokens, and the bootconfig is a sequence of
    newline-terminated lines, none of them holding a space, the command
    line handed to mkbootimg is the first token unchanged, then every
    further token and every bootconfig line, each after one space and
    without a leading [kernel.], then one final space. *)
Theorem vendor_kernel_cmdline_renames
    (vendor_boot_params first : list byte) (tokens lines : list (list byte)) :
  ExtractValue vendor_boot_params (bytes "vendor command line args: ")
  = first ++ concat (map (cons SPACE) tokens) ->
  SPACE ∉ first ->
  Forall (fun t => SPACE ∉ t) tokens ->
  Forall (fun l => (SPACE ∉ l) /\ (LF ∉ l)) lines ->
  vendor_kernel_cmdline vendor_boot_params
    (concat (map (fun l => l ++ [LF]) lines)) false
  = first
    ++ concat (map (fun t => SPACE :: strip_kernel_prefix t) (tokens ++ lines))
    ++ [SPACE].
Proof.
  intros Hvalue Hfirst Htokens Hlines.
  unfold vendor_kernel_cmdline. rewrite Hvalue. cbn [negb].
  unfold StringReplace at 2. change (bytes " ") with [SPACE].
  rewrite newline_to_space
    by (eapply Forall_impl; [exact Hlines|]; by intros ? [_ ?]).
  rewrite join_lines, <- app_assoc.
  unfold StringReplace. change (bytes " kernel.") with (SPACE :: bytes "kernel.").
  cbv iota. rewrite replace_scan_token by done. f_equal.
  rewrite app_assoc, <- concat_app, <- map_app.
  replace ((concat (map (cons SPACE) (tokens ++ lines))) ++ [SPACE])
    with (concat (map (cons SPACE) ((tokens ++ lines) ++ [[]])))
    by (by rewrite map_app, concat_app).
  change (SPACE :: bytes "kernel.") with (bytes " kernel.").
  change [SPACE] with (bytes " ") at 1.
  rewrite rename_tokens.
  - by rewrite map_app, concat_app.
  - apply Forall_app. split.
    + apply Forall_app. split; [done|].
      eapply Forall_impl; [exact Hlines|]. by intros ? [? _].
    + constructor; [apply not_elem_of_nil | constructor].
Qed.

Ltac byte_not_in :=
  let H := fresh in
  intros H; vm_compute in H;
  repeat (apply elem_of_cons in H as [H|H]; [discriminate H|]);
  by apply elem_of_nil in H.

Lemma vendor_kernel_cmdline_renames_witness :
  vendor_kernel_cmdline
    (bytes "vendor command line args: bootconfig loglevel=7" ++ [LF])
    (bytes "androidboot.boot_devices=a" ++ [LF] ++
     bytes "kernel.vmw_vsock=1" ++ [LF]) false
  = bytes "bootconfig loglevel=7 androidboot.boot_devices=a vmw_vsock=1 ".
Proof.
  apply (vendor_kernel_cmdline_renames
           (bytes "vendor command line args: bootconfig loglevel=7" ++ [LF])
           (bytes "bootconfig") [bytes "loglevel=7"]
           [bytes "androidboot.boot_devices=a"; bytes "kernel.vmw_vsock=1"]).
  - reflexivity.
  - byte_not_in.
  - constructor; [byte_not_in | constructor].
  - constructor; [split; byte_not_in|].
    constructor; [split; byte_not_in | constructor].
Defined.

(** A token glued to [kernel.] twice loses the prefix once only. *)
Example vendor_kernel_cmdline_double_prefix :
  vendor_kernel_cmdline (bytes "vendor command line args: a" ++ [LF])
    (bytes "kernel.kernel.x=1" ++ [LF]) false
  = bytes "a kernel.x=1 ".
Proof. reflexivity. Qed.

(** ** Repacking the vendor boot image *)

(** X19: an unpacked directory is not repacked again.  When the params
    file exists, and either no new ramdisk is given or
    vendor_ramdisk_repacked is already there, [RepackVendorBootImage] never
    aborts, and what it does is the same whatever the shell commands, the
    copy and the directory helper of the ramdisk repack would do: they are
    not consulted. *)
Theorem RepackVendorBootImage_reuses_ramdisk
    (HostBinaryPath : string -> string)
    (Command : list string -> FS -> Z * list byte * FS)
    (Creat : string -> FS -> bool)
    (Execute Execute' : list string -> FS -> Z * FS)
    (Copy Copy' : string -> string -> FS -> bool * FS)
    (Ensure Ensure' : string -> FS -> bool * FS)
    (os : OS)
    (new_ramdisk vendor_boot_image_path new_vendor_boot_image_path
       unpack_dir : string) (bootconfig_supported : bool) (fs : FS) :
  FileExists (unpack_dir +:+ "/vendor_boot_params") fs = true ->
  new_ramdisk = ""
  \/ FileExists (unpack_dir +:+ "/vendor_ramdisk_repacked") fs = true ->
  is_Some (RepackVendorBootImage HostBinaryPath Command Creat
             Execute Copy Ensure os new_ramdisk vendor_boot_image_path
             new_vendor_boot_image_path unpack_dir bootconfig_supported fs)
  /\ RepackVendorBootImage HostBinaryPath Command Creat
       Execute Copy Ensure os new_ramdisk vendor_boot_image_path
       new_vendor_boot_image_path unpack_dir bootconfig_supported fs
     = RepackVendorBootImage HostBinaryPath Command Creat
         Execute' Copy' Ensure' os new_ramdisk vendor_boot_image_path
         new_vendor_boot_image_path unpack_dir bootconfig_supported fs.
Proof.
  intros Hparams Hor.
  unfold RepackVendorBootImage, UnpackVendorBootImageIfNotUnpacked.
  rewrite Hparams. cbn [negb].
  assert (Hpath :
    forall E C D,
      (if negb (String.length new_ramdisk =? 0)%nat then
         if negb (FileExists (unpack_dir +:+ "/vendor_ramdisk_repacked") fs)
         then
           RepackVendorRamdisk HostBinaryPath E C D new_ramdisk
             (unpack_dir +:+ "/" +:+ CONCATENATED_VENDOR_RAMDISK)
             (unpack_dir +:+ "/vendor_ramdisk_repacked") unpack_dir fs
           ≫= (fun fs0 => Some (unpack_dir +:+ "/vendor_ramdisk_repacked", fs0))
         else Some (unpack_dir +:+ "/vendor_ramdisk_repacked", fs)
       else Some (unpack_dir +:+ "/" +:+ CONCATENATED_VENDOR_RAMDISK, fs))
      = Some (if negb (String.length new_ramdisk =? 0)%nat
              then unpack_dir +:+ "/vendor_ramdisk_repacked"
              else unpack_dir +:+ "/" +:+ CONCATENATED_VENDOR_RAMDISK, fs)).
  { intros E C D. destruct Hor as [-> | Hrep]; [done|].
    rewrite Hrep. cbn [negb]. by destruct (negb _). }
  rewrite !Hpath. cbn [mbind option_bind]. split; [|done].
  destruct (Command _ fs) as [[s1 o1] fs1].
  destruct (negb (s1 =? 0)); [done|].
  destruct (Command _ fs1) as [[s2 o2] fs2].
  by destruct (negb (s2 =? 0)).
Qed.

Lemma RepackVendorBootImage_reuses_ramdisk_witness :
  let tool : list string -> FS -> Z * list byte * FS :=
    fun _ fs => (0, [], <["new_vendor_boot.img.tmp" := bytes "VNDRBOOT"]> fs) in
  let fs : FS := {[ "out/vendor_boot_params" := bytes "vendor command line args: a";
                    "out/vendor_ramdisk_repacked" := bytes "LZ4" ]} in
  is_Some (RepackVendorBootImage stub_HostBinaryPath tool (fun _ _ => true)
             (fun _ fs => (1, fs)) (fun _ _ fs => (false, fs))
             (fun _ fs => (false, fs)) permissive
             "modules.img" "vendor_boot.img" "new_vendor_boot.img" "out"
             true fs).
Proof.
  intros tool fs.
  apply (RepackVendorBootImage_reuses_ramdisk stub_HostBinaryPath tool
           (fun _ _ => true) (fun _ fs => (1, fs)) stub_Execute
           (fun _ _ fs => (false, fs)) stub_Copy
           (fun _ fs => (false, fs)) stub_EnsureDirectoryExists permissive
           "modules.img" "vendor_boot.img" "new_vendor_boot.img" "out"
           true fs); [reflexivity | right; reflexivity].
Defined.

(** ** The boolean flags of the launcher *)

Lemma find_char_from_None base s c :
  find_char_from base s c = None -> c ∉ s.
Proof.
  revert base. induction s as [|x s IH]; intros base; [intros; apply not_elem_of_nil|].
  simpl. destruct (byte_eqb x c) eqn:E; [done|].
  apply byte_eqb_neq in E. intros H%IH.
  apply not_elem_of_cons. split; [congruence | done].
Qed.

Lemma ConsumePrefix_dash (s : list byte) :
  (exists rest, s = bytes "-" ++ rest /\
     Start.ConsumePrefix s (bytes "-") = (true, rest))
  \/ (Start.ConsumePrefix s (bytes "-") = (false, s) /\
      forall rest, s <> bytes "-" ++ rest).
Proof.
  unfold Start.ConsumePrefix.
  destruct (starts_with (bytes "-") s) eqn:E.
  - apply starts_with_prefix in E as (rest & ->). left. by exists rest.
  - right. split; [done|]. intros rest ->.
    rewrite (proj2 (starts_with_prefix _ _)) in E by eauto. discriminate E.
Qed.

Lemma IsBoolArg_equals_sign (argument : list byte) :
  Start.EQUALS ∈ argument ->
  Start.IsBoolArg argument = Start.no_flag.
Proof.
  intros Hin. unfold Start.IsBoolArg.
  destruct (ConsumePrefix_dash argument) as [(a1 & -> & ->) | [-> _]]; [|done].
  cbn [negb].
  assert (Hin1 : Start.EQUALS ∈ a1).
  { apply elem_of_cons in Hin as [Hin|Hin]; [discriminate Hin | done]. }
  assert (Hname : forall b n, Start.ConsumePrefix a1 (bytes "-") = (b, n) ->
                              Start.EQUALS ∈ n).
  { intros b n.
    destruct (ConsumePrefix_dash a1) as [(a2 & -> & ->) | [-> _]];
      intros [= _ <-]; [|done].
    apply elem_of_cons in Hin1 as [Hin1|Hin1]; [discriminate Hin1 | done]. }
  destruct (Start.ConsumePrefix a1 (bytes "-")) as [b n] eqn:E.
  specialize (Hname b n eq_refl).
  unfold find_char. rewrite drop_0.
  destruct (find_char_from 0 n Start.EQUALS) eqn:F; [done|].
  by apply find_char_from_None in F.
Qed.

(** X22: an argument holding an equals sign is never taken for a boolean
    flag, so what [FormatBoolString] builds is never converted again. *)
Theorem IsBoolArg_with_equals (argument : list byte) :
  Start.EQUALS ∈ argument ->
  Start.IsBoolArg argument = Start.no_flag
  /\ forall name value,
       Start.IsBoolArg (Start.FormatBoolString name value) = Start.no_flag.
Proof.
  intros Hin. split; [by apply IsBoolArg_equals_sign|].
  intros name value. apply IsBoolArg_equals_sign.
  unfold Start.FormatBoolString.
  destruct value; apply elem_of_app; right; vm_compute;
    apply list_elem_of_here.
Qed.

Lemma IsBoolArg_with_equals_witness :
  Start.IsBoolArg (bytes "--daemon=true") = Start.no_flag.
Proof.
  apply (IsBoolArg_with_equals (bytes "--daemon=true")). vm_compute.
  do 8 apply list_elem_of_further. apply list_elem_of_here.
Defined.

Lemma OverrideBoolArg_loop (done rest : list (list byte)) (overrided : bool) :
  foldl (fun '(overrided, args) index =>
           match args !! index with
           | Some curr_arg =>
               let value := Start.IsBoolArg curr_arg in
               if Start.is_bool_flag value then
                 (true,
                  <[index := Start.FormatBoolString (Start.name value)
                               (Start.bool_flag_value value)]> args)
               else (overrided, args)
           | None => (overrided, args)
           end)
        (overrided, done ++ rest) (seq (length done) (length rest))
  = (overrided
     || existsb (fun a => Start.is_bool_flag (Start.IsBoolArg a)) rest,
     done ++ map override_arg rest).
Proof.
  revert done overrided. induction rest as [|a rest IH]; intros done overrided.
  - simpl. by rewrite orb_false_r.
  - cbn [length seq foldl].
    rewrite (list_lookup_middle done rest a (length done) eq_refl).
    cbn [map existsb]. cbv zeta.
    destruct (Start.is_bool_flag (Start.IsBoolArg a)) eqn:E.
    + assert (Ha : override_arg a
                   = Start.FormatBoolString (Start.name (Start.IsBoolArg a))
                       (Start.bool_flag_value (Start.IsBoolArg a)))
        by (unfold override_arg; by rewrite E).
      rewrite Ha.
      replace (<[length done := _]> (done ++ a :: rest))
        with ((done ++ [Start.FormatBoolString (Start.name (Start.IsBoolArg a))
                          (Start.bool_flag_value (Start.IsBoolArg a))]) ++ rest).
      2:{ rewrite <- (Nat.add_0_r (length done)), insert_app_r.
          by rewrite <- app_assoc. }
      replace (S (length done))
        with (length (done ++ [Start.FormatBoolString
                                 (Start.name (Start.IsBoolArg a))
                                 (Start.bool_flag_value (Start.IsBoolArg a))]))
        by (rewrite length_app; simpl; lia).
      rewrite IH, <- app_assoc. cbn [orb app]. by rewrite orb_true_r.
    + assert (Ha : override_arg a = a)
        by (unfold override_arg; by rewrite E).
      rewrite Ha.
      replace (done ++ a :: rest) with ((done ++ [a]) ++ rest)
        by (by rewrite <- app_assoc).
      replace (S (length done)) with (length (done ++ [a]))
        by (rewrite length_app; simpl; lia).
      rewrite IH, <- app_assoc. done.
Qed.

Lemma OverrideBoolArg_as_map (args : list (list byte)) :
  Start.OverrideBoolArg args
  = (existsb (fun a => Start.is_bool_flag (Start.IsBoolArg a)) args,
     map override_arg args).
Proof. exact (OverrideBoolArg_loop [] args false). Qed.

(** X23: the in-place loop of [OverrideBoolArg] keeps the number and the
    order of the arguments, rewrites exactly the arguments [IsBoolArg]
    recognises, each to --name=true or --name=false, and returns true
    exactly when there is such an argument. *)
Theorem OverrideBoolArg_rewrites (args : list (list byte)) :
  Start.OverrideBoolArg args
  = (existsb (fun a => Start.is_bool_flag (Start.IsBoolArg a)) args,
     map override_arg args)
  /\ length (Start.OverrideBoolArg args).2 = length args.
Proof.
  split; [apply OverrideBoolArg_as_map|].
  rewrite OverrideBoolArg_as_map. cbn [snd]. apply length_map.
Qed.

Lemma override_arg_settled (argument : list byte) :
  Start.is_bool_flag (Start.IsBoolArg (override_arg argument)) = false.
Proof.
  unfold override_arg.
  destruct (Start.is_bool_flag (Start.IsBoolArg argument)) eqn:E; [|done].
  rewrite IsBoolArg_equals_sign; [done|].
  unfold Start.FormatBoolString.
  destruct (Start.bool_flag_value _); apply elem_of_app; right; vm_compute;
    apply list_elem_of_here.
Qed.

Lemma override_arg_idempotent (argument : list byte) :
  override_arg (override_arg argument) = override_arg argument.
Proof.
  unfold override_arg at 1. by rewrite override_arg_settled.
Qed.

(** X24: a second pass of [OverrideBoolArg] over its own result finds
    nothing to rewrite: it returns false and leaves every argument as it
    is. *)
Theorem OverrideBoolArg_idempotent (args : list (list byte)) :
  Start.OverrideBoolArg (Start.OverrideBoolArg args).2
  = (false, (Start.OverrideBoolArg args).2).
Proof.
  rewrite (OverrideBoolArg_as_map args). cbn [snd].
  rewrite OverrideBoolArg_as_map. f_equal.
  - induction args as [|a args IH]; [done|]. cbn [map existsb].
    by rewrite override_arg_settled, IH.
  - rewrite map_map. apply map_ext. intros a. apply override_arg_idempotent.
Qed.

Lemma ConsumePrefix_cases (s p : list byte) :
  (exists rest, s = p ++ rest /\ Start.ConsumePrefix s p = (true, rest))
  \/ Start.ConsumePrefix s p = (false, s).
Proof.
  unfold Start.ConsumePrefix. destruct (starts_with p s) eqn:E; [|by right].
  apply starts_with_prefix in E as (rest & ->). left. exists rest.
  by rewrite drop_app_length.
Qed.

(** X25: what [IsBoolArg] recognises.  A recognised argument is one or two
    dashes, then "no" exactly when the value is false, then the returned
    name; the name is in [kBoolFlags]. *)
Theorem IsBoolArg_sound (argument : list byte) :
  Start.is_bool_flag (Start.IsBoolArg argument) = true ->
  Start.name (Start.IsBoolArg argument) ∈ Start.kBoolFlags /\
  exists dashes,
    (dashes = bytes "-" \/ dashes = bytes "--") /\
    argument
    = dashes
      ++ (if Start.bool_flag_value (Start.IsBoolArg argument)
          then [] else bytes "no")
      ++ Start.name (Start.IsBoolArg argument).
Proof.
  unfold Start.IsBoolArg.
  destruct (ConsumePrefix_cases argument (bytes "-"))
    as [(a1 & -> & ->) | ->]; [|done].
  cbn [negb].
  assert (Hdash : exists dashes n b,
             Start.ConsumePrefix a1 (bytes "-") = (b, n) /\
             (dashes = bytes "-" \/ dashes = bytes "--") /\
             bytes "-" ++ a1 = dashes ++ n).
  { destruct (ConsumePrefix_cases a1 (bytes "-")) as [(a2 & -> & ->) | ->].
    - exists (bytes "--"), a2, true. by split_and!; [|right|].
    - exists (bytes "-"), a1, false. by split_and!; [|left|]. }
  destruct Hdash as (dashes & n & b & -> & Hd & ->).
  destruct (find_char n Start.EQUALS 0); [done|].
  destruct (length n =? 0)%nat; [done|].
  destruct (bool_decide (n ∈ Start.kBoolFlags)) eqn:Hin.
  { intros _. cbn [Start.name Start.bool_flag_value].
    apply bool_decide_eq_true in Hin. split; [done|]. by exists dashes. }
  destruct (ConsumePrefix_cases n (bytes "no")) as [(n' & -> & ->) | ->];
    [|done].
  destruct (bool_decide (n' ∈ Start.kBoolFlags)) eqn:Hin'; [|done].
  intros _. cbn [Start.name Start.bool_flag_value].
  apply bool_decide_eq_true in Hin'. split; [done|]. by exists dashes.
Qed.

Lemma IsBoolArg_sound_witness :
  Start.name (Start.IsBoolArg (bytes "-nodaemon")) ∈ Start.kBoolFlags.
Proof.
  apply (IsBoolArg_sound (bytes "-nodaemon")). reflexivity.
Defined.

(** X26: every name of [kBoolFlags] is rewritten in its four spellings:
    -name and --name become --name=true, -noname and --noname become
    --name=false. *)
Theorem kBoolFlags_spellings :
  Forall (fun n =>
            override_arg (bytes "-" ++ n) = bytes "--" ++ n ++ bytes "=true" /\
            override_arg (bytes "--" ++ n) = bytes "--" ++ n ++ bytes "=true" /\
            override_arg (bytes "-no" ++ n) = bytes "--" ++ n ++ bytes "=false" /\
            override_arg (bytes "--no" ++ n) = bytes "--" ++ n ++ bytes "=false")
         Start.kBoolFlags.
Proof.
  unfold Start.kBoolFlags.
  repeat (constructor; [repeat split; vm_compute; reflexivity|]).
  constructor.
Qed.

(** ** Unpacking a ramdisk *)

(** X27: a ramdisk that already is a cpio archive is never decompressed.
    When the file starts with the magic 070701, the outcome of
    [UnpackRamdisk] is the same for any two shells that agree on the
    extraction command: the lz4 command is not run. *)
Theorem UnpackRamdisk_archive_not_decompressed
    (HostBinaryPath : string -> string)
    (Execute Execute' : list string -> FS -> Z * FS)
    (Copy : string -> string -> FS -> bool * FS)
    (EnsureDirectoryExists : string -> FS -> bool * FS)
    (original_ramdisk_path ramdisk_stage_dir : string) (fs : FS)
    (rest : list byte) :
  fs !! original_ramdisk_path = Some (bytes "070701" ++ rest) ->
  (forall fs0,
      Execute ["/bin/bash"; "-c";
               "(cd " +:+ ramdisk_stage_dir +:+ " && while " +:+
               HostBinaryPath "toybox" +:+ " cpio -idu; do :; done) < " +:+
               original_ramdisk_path +:+ CPIO_EXT] fs0
      = Execute' ["/bin/bash"; "-c";
                  "(cd " +:+ ramdisk_stage_dir +:+ " && while " +:+
                  HostBinaryPath "toybox" +:+ " cpio -idu; do :; done) < " +:+
                  original_ramdisk_path +:+ CPIO_EXT] fs0) ->
  UnpackRamdisk HostBinaryPath Execute Copy EnsureDirectoryExists
    original_ramdisk_path ramdisk_stage_dir fs
  = UnpackRamdisk HostBinaryPath Execute' Copy EnsureDirectoryExists
      original_ramdisk_path ramdisk_stage_dir fs.
Proof.
  intros Hfile Hsame. unfold UnpackRamdisk.
  assert (Hcpio : IsCpioArchive original_ramdisk_path fs = true).
  { apply IsCpioArchive_true. eexists. split; [exact Hfile | reflexivity]. }
  rewrite Hcpio.
  destruct (Copy _ _ fs) as [[] fs1]; cbn [mbind option_bind]; [|done].
  destruct (EnsureDirectoryExists _ fs1) as [[] fs2]; cbn [negb]; [|done].
  by rewrite Hsame.
Qed.

Lemma UnpackRamdisk_archive_not_decompressed_witness :
  let fs : FS := {[ "out/concatenated_vendor_ramdisk" := bytes "070701cpio" ]} in
  UnpackRamdisk stub_HostBinaryPath stub_Execute stub_Copy
    stub_EnsureDirectoryExists "out/concatenated_vendor_ramdisk" "out/stage" fs
  = UnpackRamdisk stub_HostBinaryPath
      (fun args fs0 =>
         match args with
         | [_; _; cmd] =>
             if String.prefix "/usr/bin/lz4" cmd then (1, fs0)
             else stub_Execute args fs0
         | _ => stub_Execute args fs0
         end)
      stub_Copy stub_EnsureDirectoryExists
      "out/concatenated_vendor_ramdisk" "out/stage" fs.
Proof.
  intros fs.
  apply (UnpackRamdisk_archive_not_decompressed stub_HostBinaryPath
           stub_Execute _ stub_Copy stub_EnsureDirectoryExists
           "out/concatenated_vendor_ramdisk" "out/stage" fs (bytes "cpio"));
    [reflexivity | intros fs0; reflexivity].
Defined.
